(** * Monitor bootstrap controller of the rook operator

    A shallow embedding of [pkg/operator/mon/mon.go]: cluster identity
    resolution ([initClusterInfo], [createMonSecretsAndSave]), the monitor
    pod launcher ([startPods]) and the readiness poll ([waitForPodToStart]).

    The Go code talks to the Kubernetes API and to the ceph monitor manager.
    Every such call is a node of a program tree ([Prog]); running a tree
    against an environment ([Env]) yields the returned value, the final
    environment state and the list of calls that were made, in order.
    Calls of the logger are left out. *)

From Stdlib Require Import ZArith String List Lia.
From stdpp Require Import base option list gmap strings pretty.

Local Open Scope Z_scope.
Local Open Scope string_scope.
Local Open Scope list_scope.

(** ** Constants of the package *)

Definition appName : string := "mon".
Definition monNodeAttr : string := "mon_node".
Definition monClusterAttr : string := "mon_cluster".
Definition tprName : string := "mon.rook.io".
Definition fsidSecretName : string := "fsid".
Definition monSecretName : string := "mon-secret".
Definition adminSecretName : string := "admin-secret".
Definition clusterSecretName : string := "cluster-name".

(** [v1.PodRunning] and [v1.PodPending]: a pod phase is a Go string. *)
Definition PodRunning : string := "Running".
Definition PodPending : string := "Pending".

(** ** Errors *)

(** How the resource store classifies a failed call. *)
Inductive ErrKind : Type :=
| NotFound
| AlreadyExists
| OtherFailure.

(** A Go [error] value: either one handed back by a collaborator, or one
    built here with [fmt.Errorf]. *)
Inductive error : Type :=
| StoreError (kind : ErrKind) (msg : string)
| Errorf (msg : string).

(** The [Error()] method, which is what the verb [%+v] prints. *)
Definition Error (e : error) : string :=
  match e with
  | StoreError _ msg => msg
  | Errorf msg => msg
  end.

(** Modelled from the spec: [k8sutil.IsKubernetesResourceNotFoundError] is
    not part of the source at hand; the resource store exposes a
    distinguishable NotFound outcome. *)
Definition IsKubernetesResourceNotFoundError (e : error) : bool :=
  match e with
  | StoreError NotFound _ => true
  | _ => false
  end.

(** Modelled from the spec: [k8sutil.IsKubernetesResourceAlreadyExistError]
    is not part of the source at hand; the resource store exposes a
    distinguishable AlreadyExists outcome. *)
Definition IsKubernetesResourceAlreadyExistError (e : error) : bool :=
  match e with
  | StoreError AlreadyExists _ => true
  | _ => false
  end.

(** ** Data *)

Module Secret.
(** [v1.Secret], with the fields this package reads or writes. *)
Record t : Type := mk {
  Name : string;
  Data : gmap string (list Byte.byte);
  StringData : gmap string string;
  Type_ : string
}.
Definition zero : t := mk "" ∅ ∅ "".
End Secret.

Module Pod.
(** [v1.Pod], with the fields this package reads. *)
Record t : Type := mk {
  Name : string;
  Phase : string;
  PodIP : string
}.
Definition zero : t := mk "" "" "".
End Pod.

Module CephMonitorConfig.
(** Modelled from the spec: the type [mon.CephMonitorConfig] is declared
    outside the source at hand; a monitor entry carries the monitor's name
    and its endpoint (address and port). *)
Record t : Type := mk {
  Name : string;
  Endpoint : string
}.
End CephMonitorConfig.

Module ClusterInfo.
(** [mon.ClusterInfo]: the cluster identity. *)
Record t : Type := mk {
  Name : string;
  FSID : string;
  MonitorSecret : string;
  AdminSecret : string;
  Monitors : gmap string CephMonitorConfig.t
}.
Definition zero : t := mk "" "" "" "" ∅.

(** The assignment [info.Monitors = m]. *)
Definition setMonitors (info : t) (m : gmap string CephMonitorConfig.t) : t :=
  mk (Name info) (FSID info) (MonitorSecret info) (AdminSecret info) m.

(** The assignment [info.Monitors[name] = cfg]. *)
Definition putMonitor (info : t) (name : string) (cfg : CephMonitorConfig.t) : t :=
  setMonitors info (<[name := cfg]> (Monitors info)).
End ClusterInfo.

Module MonConfig.
Record t : Type := mk {
  Name : string;
  Port : Z
}.
End MonConfig.

Module Cluster.
(** The [Cluster] struct. The connection factory is an opaque handle that
    is only handed on to [mon.CreateClusterInfo]; it is left out. *)
Record t : Type := mk {
  Namespace : string;
  Keyring : string;
  ClusterName : string;
  Version : string;
  MasterHost : string;
  Size : Z;
  Paused : bool;
  AntiAffinity : bool;
  Port : Z
}.
End Cluster.

Definition New (namespace version : string) : Cluster.t :=
  {| Cluster.Namespace := namespace;
     Cluster.Keyring := "";
     Cluster.ClusterName := "";
     Cluster.Version := version;
     Cluster.MasterHost := "";
     Cluster.Size := 3;
     Cluster.Paused := false;
     Cluster.AntiAffinity := true;
     Cluster.Port := 0 |}.

(** ** Calls to the collaborators

    The calls on the Kubernetes client ([Secrets], [Pods], [Nodes]), the
    call of [mon.CreateClusterInfo], the pause [<-time.After], and the call
    of the package's own [pollPods], whose body is not at hand. *)

Inductive Call : Type :=
| SecretsGet (ns name : string)
| SecretsCreate (ns : string) (secret : Secret.t)
| PollPods (ns clusterName : string)
| PodsCreate (ns : string) (pod : Pod.t)
| PodsGet (ns name : string)
| NodesList (kind : string)
| CreateClusterInfo (namePrefix : string)
| After (seconds : Z).

(** What a call hands back. A Go pair [(object, err)] stays a pair: the
    object is there even when [err] is not nil. *)
Definition Resp (c : Call) : Type :=
  match c with
  | SecretsGet _ _ | SecretsCreate _ _ => (Secret.t * option error)%type
  | PollPods _ _ => (list Pod.t * list Pod.t * option error)%type
  | PodsCreate _ _ | PodsGet _ _ => (Pod.t * option error)%type
  | NodesList _ => (list string * option error)%type
  | CreateClusterInfo _ => (ClusterInfo.t * option error)%type
  | After _ => unit
  end.

(** The same answers as one plain type, for traces and scripted runs. *)
Inductive Reply : Type :=
| RSecret (s : Secret.t) (err : option error)
| RPoll (running pending : list Pod.t) (err : option error)
| RPod (p : Pod.t) (err : option error)
| RNodes (l : list string) (err : option error)
| RInfo (i : ClusterInfo.t) (err : option error)
| RDone.

Definition reply (c : Call) : Resp c → Reply :=
  match c return Resp c → Reply with
  | SecretsGet _ _ | SecretsCreate _ _ => λ r, RSecret r.1 r.2
  | PollPods _ _ => λ r, RPoll r.1.1 r.1.2 r.2
  | PodsCreate _ _ | PodsGet _ _ => λ r, RPod r.1 r.2
  | NodesList _ => λ r, RNodes r.1 r.2
  | CreateClusterInfo _ => λ r, RInfo r.1 r.2
  | After _ => λ _, RDone
  end.

(** One entry of a trace: the call and what came back. *)
Definition Event : Type := (Call * Reply)%type.

(** ** Programs *)

Inductive Prog (A : Type) : Type :=
| Ret (a : A)
| Do (c : Call) (k : Resp c → Prog A).
Arguments Ret {A} a.
Arguments Do {A} c k.

Fixpoint bind {A B : Type} (p : Prog A) (f : A → Prog B) : Prog B :=
  match p with
  | Ret a => f a
  | Do c k => Do c (λ r, bind (k r) f)
  end.

#[global] Instance Prog_ret : MRet Prog := @Ret.
#[global] Instance Prog_bind : MBind Prog := λ A B f p, bind p f.

Definition call (c : Call) : Prog (Resp c) := Do c Ret.

(** An environment answers every call and moves to its next state. *)
Record Env : Type := mkEnv {
  St : Type;
  handle : St → ∀ c : Call, St * Resp c
}.

Fixpoint run {A : Type} (E : Env) (p : Prog A) (st : St E)
  : A * St E * list Event :=
  match p with
  | Ret a => (a, st, [])
  | Do c k =>
      let sr := handle E st c in
      let out := run E (k sr.2) sr.1 in
      (out.1.1, out.1.2, (c, reply c sr.2) :: out.2)
  end.

(** The three parts of a finished run. *)
Definition result {A S : Type} (out : A * S * list Event) : A := out.1.1.
Definition final {A S : Type} (out : A * S * list Event) : S := out.1.2.
Definition trace {A S : Type} (out : A * S * list Event) : list Event := out.2.

(** ** The controller *)

(** Functions and constants the package takes from elsewhere in the
    repository and that are not part of the source at hand. *)
Record Imports : Type := mkImports {
  (** [c.makeMonPod(config, clusterInfo, antiAffinity)] *)
  makeMonPod : Cluster.t → MonConfig.t → ClusterInfo.t → bool → Pod.t;
  (** [mon.ToCephMon(name, address)] *)
  ToCephMon : string → string → CephMonitorConfig.t;
  (** [mon.Port] *)
  monPort : Z;
  (** [k8sutil.RookType] and [k8sutil.RbdType] *)
  RookType : string;
  RbdType : string
}.

(** [string(secrets.Data[key])]: a key that is absent reads as the nil
    slice, whose conversion is the empty string. *)
Definition dataString (s : Secret.t) (key : string) : string :=
  string_of_list_byte (default [] (Secret.Data s !! key)).

Section Controller.
Variable X : Imports.
Variable c : Cluster.t.

Definition createMonSecretsAndSave : Prog (ClusterInfo.t + error) :=
  '(info, err) ← call (CreateClusterInfo "");
  match err with
  | Some e => mret (inr (Errorf ("failed to create mon secrets. " +:+ Error e)))
  | None =>
    let secrets : gmap string string :=
      <[adminSecretName := ClusterInfo.AdminSecret info]>
      (<[monSecretName := ClusterInfo.MonitorSecret info]>
      (<[fsidSecretName := ClusterInfo.FSID info]>
      (<[clusterSecretName := ClusterInfo.Name info]> ∅))) in
    let secret := Secret.mk appName ∅ secrets (RookType X) in
    '(_, err) ← call (SecretsCreate (Cluster.Namespace c) secret);
    match err with
    | Some e => mret (inr (Errorf ("failed to save mon secrets. " +:+ Error e)))
    | None =>
      let storageClassSecret : gmap string string :=
        <["key" := ClusterInfo.AdminSecret info]> ∅ in
      let secret := Secret.mk "rook-admin" ∅ storageClassSecret (RbdType X) in
      '(_, err) ← call (SecretsCreate (Cluster.Namespace c) secret);
      match err with
      | Some e =>
        if negb (IsKubernetesResourceAlreadyExistError e)
        then mret (inr (Errorf ("failed to save rook-admin secret. " +:+ Error e)))
        else mret (inl info)
      | None => mret (inl info)
      end
    end
  end.

Definition initClusterInfo : Prog (ClusterInfo.t + error) :=
  '(secrets, err) ← call (SecretsGet (Cluster.Namespace c) appName);
  match err with
  | Some e =>
    if negb (IsKubernetesResourceNotFoundError e)
    then mret (inr (Errorf ("failed to get mon secrets. " +:+ Error e)))
    else createMonSecretsAndSave
  | None =>
    mret (inl {| ClusterInfo.Name := dataString secrets clusterSecretName;
                 ClusterInfo.FSID := dataString secrets fsidSecretName;
                 ClusterInfo.MonitorSecret := dataString secrets monSecretName;
                 ClusterInfo.AdminSecret := dataString secrets adminSecretName;
                 ClusterInfo.Monitors := ∅ |})
  end.

(** The body of the poll loop run [attempts] more times: the loop
    [for i := 0; i < 15; i++] has [15 - i] rounds left at index [i]. Inside
    the body the name [pod] is rebound to the fetched object; the call and
    the time-out message use the parameter. *)
Fixpoint waitLoop (pod : Pod.t) (attempts : nat) : Prog (string + error) :=
  match attempts with
  | O => mret (inr (Errorf ("timed out waiting for pod " +:+ Pod.Name pod +:+ " to start")))
  | S n =>
    let delay := 6 in
    _ ← call (After delay);
    '(pod', err) ← call (PodsGet (Cluster.Namespace c) (Pod.Name pod));
    match err with
    | Some e =>
      mret (inr (Errorf ("failed to get mon pod " +:+ Pod.Name pod' +:+ ". " +:+ Error e)))
    | None =>
      if String.eqb (Pod.Phase pod') PodRunning
      then mret (inl (Pod.PodIP pod'))
      else waitLoop pod n
    end
  end.

Definition waitForPodToStart (pod : Pod.t) : Prog (string + error) :=
  waitLoop pod 15.

Definition getAntiAffinity : Prog (bool * option error) :=
  '(nodes, err) ← call (NodesList "Node");
  match err with
  | Some e => mret (false, Some (Errorf ("failed to get nodes in cluster. " +:+ Error e)))
  | None => mret (bool_decide (Cluster.Size c ≤ Z.of_nat (length nodes))%Z, None)
  end.

(** [c.pollPods(clientset, clusterName)] is a method of the package that is
    not part of the source at hand. It is taken as a call of its own, which
    answers with the running instances, the pending instances and an error,
    as the method returns them. *)
Definition pollPods (clusterName : string)
  : Prog (list Pod.t * list Pod.t * option error) :=
  call (PollPods (Cluster.Namespace c) clusterName).

(** [for _, m := range running { clusterInfo.Monitors[m.Name] = ... }] *)
Definition recordRunning (running : list Pod.t)
    (monitors : gmap string CephMonitorConfig.t) : gmap string CephMonitorConfig.t :=
  foldl (λ acc m, <[Pod.Name m := ToCephMon X (Pod.Name m) (Pod.PodIP m)]> acc)
        monitors running.

(** The loop [for _, m := range mons] of [startPods]. [clusterInfo] is the
    object behind the pointer, handed on from round to round; it comes back
    as it stands when the loop ends or gives up. The counters [started] and
    [alreadyRunning] only feed the log line after the loop. *)
Fixpoint startLoop (antiAffinity : bool) (mons : list MonConfig.t)
    (clusterInfo : ClusterInfo.t) (started alreadyRunning : Z)
  : Prog (ClusterInfo.t * Z * Z * option error) :=
  match mons with
  | [] => mret (clusterInfo, started, alreadyRunning, None)
  | m :: rest =>
    let monPod := makeMonPod X c m clusterInfo antiAffinity in
    (* the statements after the [if err != nil { ... } else { ... }] *)
    let wait (started alreadyRunning : Z) :=
      r ← waitForPodToStart monPod;
      match r with
      | inr e =>
        mret (clusterInfo, started, alreadyRunning,
              Some (Errorf ("failed to start pod " +:+ Pod.Name monPod +:+ ". " +:+ Error e)))
      | inl podIP =>
        startLoop antiAffinity rest
          (ClusterInfo.putMonitor clusterInfo (MonConfig.Name m)
             (ToCephMon X (MonConfig.Name m) podIP))
          started alreadyRunning
      end in
    '(_, err) ← call (PodsCreate (Cluster.Namespace c) monPod);
    match err with
    | Some e =>
      if negb (IsKubernetesResourceAlreadyExistError e)
      then mret (clusterInfo, started, alreadyRunning,
                 Some (Errorf ("failed to create mon pod " +:+ Cluster.Namespace c
                               +:+ ". " +:+ Error e)))
      else wait started (alreadyRunning + 1)%Z
    | None => wait (started + 1)%Z alreadyRunning
    end
  end.

(** [startPods] changes the object behind [clusterInfo] in place; the
    object as it stands on return comes back next to the error. *)
Definition startPods (clusterInfo : ClusterInfo.t) (mons : list MonConfig.t)
  : Prog (ClusterInfo.t * option error) :=
  '(antiAffinity, err) ← getAntiAffinity;
  match err with
  | Some e => mret (clusterInfo, Some (Errorf ("failed to get antiaffinity. " +:+ Error e)))
  | None =>
    '(running, pending, err) ← pollPods (ClusterInfo.Name clusterInfo);
    match err with
    | Some e => mret (clusterInfo, Some (Errorf ("failed to get mon pods. " +:+ Error e)))
    | None =>
      let clusterInfo :=
        ClusterInfo.setMonitors clusterInfo (recordRunning running ∅) in
      if bool_decide (Z.of_nat (length running) = Cluster.Size c)
      then mret (clusterInfo, None)
      else
        '(clusterInfo, _, _, err) ← startLoop antiAffinity mons clusterInfo 0 0;
        mret (clusterInfo, err)
    end
  end.

(** The specs built by [Start]: [mon0 .. mon(Size-1)] on [mon.Port]. *)
Definition monConfigs : list MonConfig.t :=
  (λ i, MonConfig.mk ("mon" +:+ pretty i) (monPort X)) <$> seqZ 0 (Cluster.Size c).

Definition Start : Prog (ClusterInfo.t + error) :=
  r ← initClusterInfo;
  match r with
  | inr e => mret (inr (Errorf ("failed to initialize ceph cluster info. " +:+ Error e)))
  | inl clusterInfo =>
    '(clusterInfo, err) ← startPods clusterInfo monConfigs;
    match err with
    | Some e => mret (inr (Errorf ("failed to start mon pods. " +:+ Error e)))
    | None => mret (inl clusterInfo)
    end
  end.

Definition GetMonPodsRunning (clusterName : string) : Prog (Z * Z * option error) :=
  '(running, pending, err) ← pollPods clusterName;
  match err with
  | Some e => mret (0, 0, Some (Errorf ("failed to get mon pods. " +:+ Error e)))
  | None => mret (Z.of_nat (length running), Z.of_nat (length pending), None)
  end.

End Controller.

(** ** Environments to run against *)

(** The zero answer of a call: empty object, nil error. *)
Definition zeroResp (c : Call) : Resp c :=
  match c return Resp c with
  | SecretsGet _ _ | SecretsCreate _ _ => (Secret.zero, None)
  | PollPods _ _ => ([], [], None)
  | PodsCreate _ _ | PodsGet _ _ => (Pod.zero, None)
  | NodesList _ => ([], None)
  | CreateClusterInfo _ => (ClusterInfo.zero, None)
  | After _ => tt
  end.

Definition coerce (c : Call) (r : Reply) : option (Resp c) :=
  match c return option (Resp c) with
  | SecretsGet _ _ | SecretsCreate _ _ =>
      match r with RSecret s e => Some (s, e) | _ => None end
  | PollPods _ _ =>
      match r with RPoll l l' e => Some (l, l', e) | _ => None end
  | PodsCreate _ _ | PodsGet _ _ =>
      match r with RPod p e => Some (p, e) | _ => None end
  | NodesList _ =>
      match r with RNodes l e => Some (l, e) | _ => None end
  | CreateClusterInfo _ =>
      match r with RInfo i e => Some (i, e) | _ => None end
  | After _ => Some tt
  end.

(** A scripted environment: its state is the list of answers still to be
    given. Every call but [After] takes the next answer (the zero answer when
    the script has run out or the next answer is of the wrong shape);
    [After] just returns. *)
Definition consumes (c : Call) : bool :=
  match c with After _ => false | _ => true end.

Definition scriptedHandle (st : list Reply) (c : Call) : list Reply * Resp c :=
  match st with
  | [] => ([], zeroResp c)
  | r :: rest =>
      (if consumes c then rest else st, default (zeroResp c) (coerce c r))
  end.

Definition scripted : Env := {| St := list Reply; handle := scriptedHandle |}.

(** A store of secrets in memory, keyed by namespace and name. A get reads
    and leaves the store as it is; a create adds the secret unless the name
    is taken. The store keeps string data as bytes. *)
Definition storedSecret (s : Secret.t) : Secret.t :=
  Secret.mk (Secret.Name s)
            ((list_byte_of_string <$> Secret.StringData s) ∪ Secret.Data s)
            ∅ (Secret.Type_ s).

Definition secretStore : Env :=
  {| St := gmap (string * string) Secret.t;
     handle := λ st c,
       match c return gmap (string * string) Secret.t * Resp c with
       | SecretsGet ns name =>
           match st !! (ns, name) with
           | Some s => (st, (s, None))
           | None => (st, (Secret.zero, Some (StoreError NotFound "not found")))
           end
       | SecretsCreate ns s =>
           match st !! (ns, Secret.Name s) with
           | Some _ => (st, (Secret.zero, Some (StoreError AlreadyExists "already exists")))
           | None => (<[(ns, Secret.Name s) := storedSecret s]> st, (storedSecret s, None))
           end
       | PollPods ns n => (st, zeroResp (PollPods ns n))
       | PodsCreate ns p => (st, zeroResp (PodsCreate ns p))
       | PodsGet ns n => (st, zeroResp (PodsGet ns n))
       | NodesList k => (st, zeroResp (NodesList k))
       | CreateClusterInfo p => (st, zeroResp (CreateClusterInfo p))
       | After d => (st, tt)
       end |}.

(** Stand-ins for the imports, and a cluster as [New] makes it, for the
    concrete runs: a monitor pod is named after its spec. *)
Definition testImports : Imports :=
  {| makeMonPod := λ _ m _ _, Pod.mk (MonConfig.Name m) "" "";
     ToCephMon := λ name addr, CephMonitorConfig.mk name (addr +:+ ":6790");
     monPort := 6790;
     RookType := "kubernetes.io/rook";
     RbdType := "kubernetes.io/rbd" |}.

Definition tc : Cluster.t := New "rook" "v1".

(** ** Reading traces *)

(** The pods of the create calls of a trace, in order. *)
Definition creates (tr : list Event) : list Pod.t :=
  omap (λ ev : Event, match ev.1 with PodsCreate _ pod => Some pod | _ => None end) tr.

(** The names of the status fetches of a trace, in order. *)
Definition fetches (tr : list Event) : list string :=
  omap (λ ev : Event, match ev.1 with PodsGet _ name => Some name | _ => None end) tr.

(** A write to the resource store. *)
Definition isWrite (c : Call) : bool :=
  match c with
  | SecretsCreate _ _ | PodsCreate _ _ => true
  | _ => false
  end.

Definition writes (tr : list Event) : list Event :=
  filter (λ ev : Event, isWrite ev.1 = true) tr.

(** [rounds ns name replies]: one poll round per reply, each round the
    fixed pause followed by the status fetch of [name]. *)
Definition rounds (ns name : string) (replies : list Reply) : list Event :=
  replies ≫= λ r, [(After 6, RDone); (PodsGet ns name, r)].

(** ** Concrete environments and scenarios *)

Definition bytes (s : string) : list Byte.byte := list_byte_of_string s.

(** A complete identity resource, and a namespace that holds it. *)
Definition monSecret : Secret.t :=
  Secret.mk "mon"
    (<[adminSecretName := bytes "AQADMIN=="]>
     (<[monSecretName := bytes "AQMON=="]>
     (<[fsidSecretName := bytes "5f3c1a2e"]>
     (<[clusterSecretName := bytes "rookcluster"]> ∅))))
    ∅ "kubernetes.io/rook".

Definition persisted : gmap (string * string) Secret.t :=
  {[ ("rook", "mon") := monSecret ]}.

(** An identity resource that holds none of the four fields. *)
Definition hollowSecret : Secret.t := Secret.mk "mon" ∅ ∅ "kubernetes.io/rook".

Definition hollow : gmap (string * string) Secret.t :=
  {[ ("rook", "mon") := hollowSecret ]}.

Definition runStore {A : Type} (p : Prog A) (st : gmap (string * string) Secret.t)
  : A * gmap (string * string) Secret.t * list Event :=
  run secretStore p st.

Definition runScript {A : Type} (p : Prog A) (script : list Reply)
  : A * list Reply * list Event :=
  run scripted p script.

Definition freshInfo : ClusterInfo.t :=
  ClusterInfo.mk "rookcluster" "5f3c1a2e" "AQMON==" "AQADMIN==" ∅.

Definition runningPod (name ip : string) : Pod.t := Pod.mk name PodRunning ip.
Definition pendingPod (name : string) : Pod.t := Pod.mk name PodPending "".

(** An environment in which every status fetch succeeds and shows Pending. *)
Definition pendingResp (c : Call) : Resp c :=
  match c return Resp c with
  | SecretsGet _ _ | SecretsCreate _ _ => (Secret.zero, None)
  | PollPods _ _ => ([], [], None)
  | PodsCreate _ _ => (Pod.zero, None)
  | PodsGet _ name => (pendingPod name, None)
  | NodesList _ => ([], None)
  | CreateClusterInfo _ => (ClusterInfo.zero, None)
  | After _ => tt
  end.

Definition alwaysPending : Env :=
  {| St := unit; handle := λ st c, (st, pendingResp c) |}.

(** The namespace is empty at the get; another controller saves its
    identity before this one does. *)
Definition raceScript : list Reply :=
  [RSecret Secret.zero (Some (StoreError NotFound "secrets mon not found"));
   RInfo freshInfo None;
   RSecret Secret.zero (Some (StoreError AlreadyExists "secrets mon already exists"))].

(** An identity that carries a monitor entry from an earlier run. *)
Definition staleInfo : ClusterInfo.t :=
  ClusterInfo.mk "rookcluster" "5f3c1a2e" "AQMON==" "AQADMIN=="
    {[ "mon9" := CephMonitorConfig.mk "mon9" "10.0.0.9:6790" ]}.

Definition threeNodes : list string := ["node-a"; "node-b"; "node-c"].

(** All three monitors are listed as Running. *)
Definition threeRunning : list Pod.t :=
  [runningPod "mon0" "10.0.0.1"; runningPod "mon1" "10.0.0.2"; runningPod "mon2" "10.0.0.3"].

Definition allRunningScript : list Reply :=
  [RNodes threeNodes None; RPoll threeRunning [] None].

(** mon0 is listed as Running; its create reports AlreadyExists, the other
    two creates succeed, and every pod shows Running at its first fetch. *)
Definition oneRunningScript : list Reply :=
  [RNodes threeNodes None;
   RPoll [runningPod "mon0" "10.0.0.1"] [] None;
   RPod Pod.zero (Some (StoreError AlreadyExists "pods mon0 already exists"));
   RPod (runningPod "mon0" "10.0.0.1") None;
   RPod (pendingPod "mon1") None;
   RPod (runningPod "mon1" "10.0.0.2") None;
   RPod (pendingPod "mon2") None;
   RPod (runningPod "mon2" "10.0.0.3") None].

(** No instance exists; every create succeeds; mon1 needs two fetches. *)
Definition freshScript : list Reply :=
  [RNodes threeNodes None;
   RPoll [] [] None;
   RPod (pendingPod "mon0") None;
   RPod (runningPod "mon0" "10.0.0.1") None;
   RPod (pendingPod "mon1") None;
   RPod (pendingPod "mon1") None;
   RPod (runningPod "mon1" "10.0.0.2") None;
   RPod (pendingPod "mon2") None;
   RPod (runningPod "mon2" "10.0.0.3") None].

(** No instance exists; the create of mon0 succeeds, but the pod stays
    Pending through all its fetches. *)
Definition stuckScript : list Reply :=
  [RNodes threeNodes None; RPoll [] [] None; RPod (pendingPod "mon0") None]
  ++ replicate 15 (RPod (pendingPod "mon0") None).

(** The second fetch of the pod fails. *)
Definition fetchFailsScript : list Reply :=
  [RPod (pendingPod "mon0") None;
   RPod Pod.zero (Some (StoreError OtherFailure "connection refused"))].

(** The store of secrets in memory, next to a monitor manager that
    generates the identity [gen]. *)
Definition bootstrapStore (gen : ClusterInfo.t) : Env :=
  {| St := gmap (string * string) Secret.t;
     handle := λ st c,
       match c return gmap (string * string) Secret.t * Resp c with
       | SecretsGet ns name => handle secretStore st (SecretsGet ns name)
       | SecretsCreate ns s => handle secretStore st (SecretsCreate ns s)
       | PollPods ns n => handle secretStore st (PollPods ns n)
       | PodsCreate ns p => handle secretStore st (PodsCreate ns p)
       | PodsGet ns n => handle secretStore st (PodsGet ns n)
       | NodesList k => handle secretStore st (NodesList k)
       | CreateClusterInfo p => (st, (gen, None))
       | After d => (st, tt)
       end |}.

(** The pod shows Pending at its first fetch and Running at its second. *)
Definition warmupScript : list Reply :=
  [RPod (pendingPod "mon0") None; RPod (runningPod "mon0" "10.0.0.1") None].

(** The store cannot be reached. *)
Definition unreachableScript : list Reply :=
  [RSecret Secret.zero (Some (StoreError OtherFailure "connection refused"))].

(** A fresh identity is generated and saved; the rook-admin secret exists
    already. *)
Definition saveScript : list Reply :=
  [RInfo freshInfo None;
   RSecret Secret.zero None;
   RSecret Secret.zero (Some (StoreError AlreadyExists "secrets rook-admin already exists"))].

(** The identity secret is found, then the launcher runs on an empty
    namespace as in [freshScript]. *)
Definition startScript : list Reply := RSecret monSecret None :: freshScript.

(** The identity secret is found, then the launcher runs as in
    [stuckScript]: the pod of mon0 never shows Running. *)
Definition startStuckScript : list Reply := RSecret monSecret None :: stuckScript.

(** ** How runs look from outside

    The predicates the statements below are written with, and the shapes
    a run of each controller function can take. *)

Section Properties.
Variable X : Imports.
Variable c : Cluster.t.

Local Abbreviation ns := (Cluster.Namespace c).

(** The identity read from a persisted secret. *)
Definition decoded (s : Secret.t) : ClusterInfo.t :=
  {| ClusterInfo.Name := dataString s clusterSecretName;
     ClusterInfo.FSID := dataString s fsidSecretName;
     ClusterInfo.MonitorSecret := dataString s monSecretName;
     ClusterInfo.AdminSecret := dataString s adminSecretName;
     ClusterInfo.Monitors := ∅ |}.

(** What the loop does once a create has been accepted: wait for the pod,
    record its address, go on with the remaining specs. *)
Definition afterCreate (E : Env) (antiAffinity : bool) (m : MonConfig.t)
    (rest : list MonConfig.t) (info : ClusterInfo.t) (started alreadyRunning : Z)
    (st : St E) : (ClusterInfo.t * Z * Z * option error) * St E * list Event :=
  let pod := makeMonPod X c m info antiAffinity in
  let w := run E (waitForPodToStart c pod) st in
  match result w with
  | inr e =>
    ((info, started, alreadyRunning,
      Some (Errorf ("failed to start pod " +:+ Pod.Name pod +:+ ". " +:+ Error e))),
     final w, trace w)
  | inl podIP =>
    let out := run E (startLoop X c antiAffinity rest
                        (ClusterInfo.putMonitor info (MonConfig.Name m)
                           (ToCephMon X (MonConfig.Name m) podIP))
                        started alreadyRunning) (final w) in
    (result out, final out, trace w ++ trace out)
  end.

(** A create is accepted when it succeeded or the instance exists already. *)
Definition accepted (err : option error) : bool :=
  match err with
  | None => true
  | Some e => IsKubernetesResourceAlreadyExistError e
  end.

(** The pod was built by [makeMonPod] for the spec [m]. *)
Definition madeFor (pod : Pod.t) (m : MonConfig.t) : Prop :=
  ∃ info aa, pod = makeMonPod X c m info aa.

(** How a run of the launcher loop looks from outside: the specs it was
    given, the identity it started from, the calls it made, the identity it
    left and the error it returned. *)
Inductive LoopRun (aa : bool)
  : list MonConfig.t → ClusterInfo.t → list Event → ClusterInfo.t → option error → Prop :=
| LoopDone (info : ClusterInfo.t) :
    LoopRun aa [] info [] info None
| LoopCreateFails m rest info p e :
    IsKubernetesResourceAlreadyExistError e = false →
    LoopRun aa (m :: rest) info
      [(PodsCreate ns (makeMonPod X c m info aa), RPod p (Some e))]
      info
      (Some (Errorf ("failed to create mon pod " +:+ ns +:+ ". " +:+ Error e)))
| LoopWaitFails m rest info p err replies e :
    accepted err = true →
    replies ≠ [] →
    LoopRun aa (m :: rest) info
      ((PodsCreate ns (makeMonPod X c m info aa), RPod p err)
         :: rounds ns (Pod.Name (makeMonPod X c m info aa)) replies)
      info
      (Some (Errorf ("failed to start pod " +:+ Pod.Name (makeMonPod X c m info aa)
                     +:+ ". " +:+ Error e)))
| LoopNext m rest info p err replies podIP tr info' err' :
    accepted err = true →
    replies ≠ [] →
    LoopRun aa rest
      (ClusterInfo.putMonitor info (MonConfig.Name m) (ToCephMon X (MonConfig.Name m) podIP))
      tr info' err' →
    LoopRun aa (m :: rest) info
      ((PodsCreate ns (makeMonPod X c m info aa), RPod p err)
         :: rounds ns (Pod.Name (makeMonPod X c m info aa)) replies ++ tr)
      info' err'.

(** In a trace: each accepted create is followed at once by the poll
    rounds of the pod it created, at least one, and after them the trace
    ends or goes on with the next create. *)
Definition waitFollows (tr : list Event) : Prop :=
  ∀ tr1 ns0 pod p err tr2,
    tr = tr1 ++ (PodsCreate ns0 pod, RPod p err) :: tr2 →
    accepted err = true →
    ∃ replies rest,
      replies ≠ []
      ∧ tr2 = rounds ns (Pod.Name pod) replies ++ rest
      ∧ (rest = [] ∨ ∃ pod' r rest', rest = (PodsCreate ns pod', r) :: rest').

(** In a trace: a create that fails otherwise is the last call. *)
Definition createFailureEnds (tr : list Event) (err : option error) : Prop :=
  ∀ tr1 ns0 pod p e tr2,
    tr = tr1 ++ (PodsCreate ns0 pod, RPod p (Some e)) :: tr2 →
    IsKubernetesResourceAlreadyExistError e = false →
    tr2 = []
    ∧ err = Some (Errorf ("failed to create mon pod " +:+ ns +:+ ". " +:+ Error e)).

(** The anti-affinity flag computed from a node listing. *)
Definition spread (nodes : list string) : bool :=
  bool_decide (Cluster.Size c ≤ Z.of_nat (length nodes))%Z.

(** The identity after the first part of [startPods]: the monitor map is a
    new one that holds the running instances. *)
Definition reset (info : ClusterInfo.t) (running : list Pod.t) : ClusterInfo.t :=
  ClusterInfo.setMonitors info (recordRunning X running ∅).

(** How a run of [startPods] looks from outside. *)
Inductive StartRun (info : ClusterInfo.t) (mons : list MonConfig.t)
  : list Event → ClusterInfo.t → option error → Prop :=
| StartNodesFail nodes e :
    StartRun info mons
      [(NodesList "Node", RNodes nodes (Some e))]
      info
      (Some (Errorf ("failed to get antiaffinity. "
                     +:+ ("failed to get nodes in cluster. " +:+ Error e))))
| StartListFail nodes running pending e :
    StartRun info mons
      [(NodesList "Node", RNodes nodes None);
       (PollPods ns (ClusterInfo.Name info), RPoll running pending (Some e))]
      info
      (Some (Errorf ("failed to get mon pods. " +:+ Error e)))
| StartAlready nodes running pending :
    Z.of_nat (length (running)) = Cluster.Size c →
    StartRun info mons
      [(NodesList "Node", RNodes nodes None);
       (PollPods ns (ClusterInfo.Name info), RPoll running pending None)]
      (reset info running) None
| StartLoop nodes running pending tr info' err :
    Z.of_nat (length (running)) ≠ Cluster.Size c →
    LoopRun (spread nodes) mons (reset info running) tr info' err →
    StartRun info mons
      ((NodesList "Node", RNodes nodes None)
         :: (PollPods ns (ClusterInfo.Name info), RPoll running pending None)
         :: tr)
      info' err.

(** The two secrets [createMonSecretsAndSave] builds from an identity. *)
Definition identitySecret (info : ClusterInfo.t) : Secret.t :=
  Secret.mk appName ∅
    (<[adminSecretName := ClusterInfo.AdminSecret info]>
     (<[monSecretName := ClusterInfo.MonitorSecret info]>
     (<[fsidSecretName := ClusterInfo.FSID info]>
     (<[clusterSecretName := ClusterInfo.Name info]> ∅))))
    (RookType X).

Definition adminSecret (info : ClusterInfo.t) : Secret.t :=
  Secret.mk "rook-admin" ∅ (<["key" := ClusterInfo.AdminSecret info]> ∅) (RbdType X).

(** How a run of [createMonSecretsAndSave] looks from outside. *)
Inductive SaveRun : list Event → ClusterInfo.t + error → Prop :=
| SaveNoIdentity info e :
    SaveRun [(CreateClusterInfo "", RInfo info (Some e))]
            (inr (Errorf ("failed to create mon secrets. " +:+ Error e)))
| SaveIdentityFails info s e :
    SaveRun [(CreateClusterInfo "", RInfo info None);
             (SecretsCreate ns (identitySecret info), RSecret s (Some e))]
            (inr (Errorf ("failed to save mon secrets. " +:+ Error e)))
| SaveAdminFails info s s' e :
    IsKubernetesResourceAlreadyExistError e = false →
    SaveRun [(CreateClusterInfo "", RInfo info None);
             (SecretsCreate ns (identitySecret info), RSecret s None);
             (SecretsCreate ns (adminSecret info), RSecret s' (Some e))]
            (inr (Errorf ("failed to save rook-admin secret. " +:+ Error e)))
| SaveDone info s s' err :
    accepted err = true →
    SaveRun [(CreateClusterInfo "", RInfo info None);
             (SecretsCreate ns (identitySecret info), RSecret s None);
             (SecretsCreate ns (adminSecret info), RSecret s' err)]
            (inl info).

(** A reply to a status fetch after which the poll loop goes on: no error,
    and a phase other than Running. *)
Definition keepsWaiting (r : Reply) : Prop :=
  ∃ p, r = RPod p None ∧ Pod.Phase p ≠ PodRunning.

(** The addresses of a trace: those of the status fetches that answered
    without error and showed Running, in order. *)
Definition addresses (tr : list Event) : list string :=
  omap (λ ev : Event,
          match ev with
          | (PodsGet _ _, RPod p None) =>
              if String.eqb (Pod.Phase p) PodRunning then Some (Pod.PodIP p) else None
          | _ => None
          end) tr.

(** [clusterInfo.Monitors[m.Name] = mon.ToCephMon(m.Name, podIP)] done for
    the specs in order, each with its address. *)
Definition recordStarted (mons : list MonConfig.t) (ips : list string)
    (monitors : gmap string CephMonitorConfig.t) : gmap string CephMonitorConfig.t :=
  foldl (λ acc mi, <[MonConfig.Name mi.1 := ToCephMon X (MonConfig.Name mi.1) mi.2]> acc)
        monitors (zip mons ips).

(** The error [waitForPodToStart] returns when its rounds are used up. *)
Definition timedOut (pod : Pod.t) : error :=
  Errorf ("timed out waiting for pod " +:+ Pod.Name pod +:+ " to start").

(** A call that concerns the identity: a secret, or the generation. *)
Definition onIdentity (c : Call) : bool :=
  match c with
  | SecretsGet _ _ | SecretsCreate _ _ | CreateClusterInfo _ => true
  | _ => false
  end.

(** In a trace: the identity is known to be kept by the store, because the
    get found it or because the create of the identity secret succeeded. *)
Definition identityKept (tr : list Event) : Prop :=
  (∃ s, (SecretsGet ns appName, RSecret s None) ∈ tr)
  ∨ (∃ info s, (SecretsCreate ns (identitySecret info), RSecret s None) ∈ tr).

(** How a poll of [pod] can end, told by the replies to its fetches: the
    last fetch shows Running and the poll answers with its address; or the
    last fetch fails and the poll answers with that failure; or all 15
    fetches pass without Running and the poll times out. In each case every
    fetch before the last answered without error and showed another phase. *)
Inductive WaitOutcome (pod : Pod.t) : list Reply → string + error → Prop :=
| WaitRunning init p :
    Forall keepsWaiting init →
    (length init < 15)%nat →
    Pod.Phase p = PodRunning →
    WaitOutcome pod (init ++ [RPod p None]) (inl (Pod.PodIP p))
| WaitFetchFails init p e :
    Forall keepsWaiting init →
    (length init < 15)%nat →
    WaitOutcome pod (init ++ [RPod p (Some e)])
      (inr (Errorf ("failed to get mon pod " +:+ Pod.Name p +:+ ". " +:+ Error e)))
| WaitTimedOut replies :
    length replies = 15%nat →
    Forall keepsWaiting replies →
    WaitOutcome pod replies (inr (timedOut pod)).

(** The error [startPods] returns when the create of a pod is refused. *)
Definition createError (e : error) : error :=
  Errorf ("failed to create mon pod " +:+ ns +:+ ". " +:+ Error e).

(** The error [startPods] returns when the poll of [pod] fails with
    [cause]. *)
Definition startError (pod : Pod.t) (cause : error) : error :=
  Errorf ("failed to start pod " +:+ Pod.Name pod +:+ ". " +:+ Error cause).

(** A run of the launcher loop as [LoopRun] tells it, with the outcome of
    every poll. *)
Inductive LoopSteps (aa : bool)
  : list MonConfig.t → ClusterInfo.t → list Event → ClusterInfo.t → option error → Prop :=
| StepsDone (info : ClusterInfo.t) :
    LoopSteps aa [] info [] info None
| StepsCreateFails m rest info p e :
    IsKubernetesResourceAlreadyExistError e = false →
    LoopSteps aa (m :: rest) info
      [(PodsCreate ns (makeMonPod X c m info aa), RPod p (Some e))]
      info (Some (createError e))
| StepsWaitFails m rest info p err replies cause :
    accepted err = true →
    WaitOutcome (makeMonPod X c m info aa) replies (inr cause) →
    LoopSteps aa (m :: rest) info
      ((PodsCreate ns (makeMonPod X c m info aa), RPod p err)
         :: rounds ns (Pod.Name (makeMonPod X c m info aa)) replies)
      info (Some (startError (makeMonPod X c m info aa) cause))
| StepsNext m rest info p err replies podIP tr info' err' :
    accepted err = true →
    WaitOutcome (makeMonPod X c m info aa) replies (inl podIP) →
    LoopSteps aa rest
      (ClusterInfo.putMonitor info (MonConfig.Name m) (ToCephMon X (MonConfig.Name m) podIP))
      tr info' err' →
    LoopSteps aa (m :: rest) info
      ((PodsCreate ns (makeMonPod X c m info aa), RPod p err)
         :: rounds ns (Pod.Name (makeMonPod X c m info aa)) replies ++ tr)
      info' err'.

(** In a trace with the error returned: after each accepted create come the
    poll rounds of the pod it created, and then the trace ends or goes on
    with the next create. The poll either succeeded, or it failed, and then
    it is the end of the trace and its failure is the error returned. *)
Definition waitDecides (tr : list Event) (err : option error) : Prop :=
  ∀ tr1 ns0 pod p err0 tr2,
    tr = tr1 ++ (PodsCreate ns0 pod, RPod p err0) :: tr2 →
    accepted err0 = true →
    ∃ replies rest,
      tr2 = rounds ns (Pod.Name pod) replies ++ rest
      ∧ (rest = [] ∨ ∃ pod' r rest', rest = (PodsCreate ns pod', r) :: rest')
      ∧ ((∃ ip, WaitOutcome pod replies (inl ip))
         ∨ (∃ cause, WaitOutcome pod replies (inr cause)
                     ∧ rest = [] ∧ err = Some (startError pod cause))).

(** The error [x] comes from what the trace ends with: a create refused
    with an error that is not AlreadyExists, or a poll that failed. *)
Definition failsAtEnd (tr : list Event) (x : error) : Prop :=
  (∃ tr0 pod p e,
     tr = tr0 ++ [(PodsCreate ns pod, RPod p (Some e))]
     ∧ IsKubernetesResourceAlreadyExistError e = false
     ∧ x = createError e)
  ∨ (∃ tr0 pod replies cause,
       tr = tr0 ++ rounds ns (Pod.Name pod) replies
       ∧ WaitOutcome pod replies (inr cause)
       ∧ x = startError pod cause).

(** In a trace with the error returned: a create that reported
    AlreadyExists is not what the error comes from; the error comes from
    what the rest of the trace ends with. *)
Definition alreadyExistsPassedOver (tr : list Event) (err : option error) : Prop :=
  ∀ tr1 ns0 pod p e tr2,
    tr = tr1 ++ (PodsCreate ns0 pod, RPod p (Some e)) :: tr2 →
    IsKubernetesResourceAlreadyExistError e = true →
    ∀ x, err = Some x → failsAtEnd tr2 x.

(** ** General facts about runs *)

Lemma run_bind {A B : Type} (E : Env) (p : Prog A) (f : A → Prog B) (st : St E) :
  run E (bind p f) st =
    (result (run E (f (result (run E p st))) (final (run E p st))),
     final (run E (f (result (run E p st))) (final (run E p st))),
     trace (run E p st) ++ trace (run E (f (result (run E p st))) (final (run E p st)))).
Proof.
  revert st. induction p as [a | c0 k IH]; intros st; simpl.
  - unfold result, final, trace. simpl. by destruct (run E (f a) st) as [[? ?] ?].
  - rewrite IH. reflexivity.
Qed.

Lemma run_mbind {A B : Type} (E : Env) (p : Prog A) (f : A → Prog B) (st : St E) :
  run E (p ≫= f) st =
    (result (run E (f (result (run E p st))) (final (run E p st))),
     final (run E (f (result (run E p st))) (final (run E p st))),
     trace (run E p st) ++ trace (run E (f (result (run E p st))) (final (run E p st)))).
Proof. apply run_bind. Qed.

(** *** Identity resolution on the found path *)

Lemma initClusterInfo_found (E : Env) (st : St E) (s : Secret.t) :
  (handle E st (SecretsGet ns appName)).2 = (s, None) →
  run E (initClusterInfo X c) st =
    (inl (decoded s), (handle E st (SecretsGet ns appName)).1,
     [(SecretsGet ns appName, RSecret s None)]).
Proof.
  intros H. unfold initClusterInfo. cbn.
  destruct (handle E st (SecretsGet ns appName)) as [st1 [s' e']].
  simpl in *. inversion H; subst. reflexivity.
Qed.

(** C10. When the persisted identity resource is found, [initClusterInfo]
    returns an identity whose monitor map is empty, whatever the persisted
    resource holds. *)
Theorem initClusterInfo_found_monitors_empty (E : Env) (st : St E) (s : Secret.t) :
  (handle E st (SecretsGet ns appName)).2 = (s, None) →
  ∃ info, result (run E (initClusterInfo X c) st) = inl info
          ∧ ClusterInfo.Monitors info = ∅.
Proof.
  intros H. rewrite (initClusterInfo_found E st s H).
  exists (decoded s). split; reflexivity.
Qed.

(** C2, as the code has it. When the persisted identity resource is found,
    [initClusterInfo] never fails and never generates an identity: the
    only call is the get, and each of the four fields is the string of the
    bytes kept under its key, the empty string when the key is absent. *)
Theorem initClusterInfo_found_never_fails (E : Env) (st : St E) (s : Secret.t) :
  (handle E st (SecretsGet ns appName)).2 = (s, None) →
  result (run E (initClusterInfo X c) st) = inl (decoded s)
  ∧ trace (run E (initClusterInfo X c) st) = [(SecretsGet ns appName, RSecret s None)]
  ∧ ∀ key, Secret.Data s !! key = None → dataString s key = "".
Proof.
  intros H. rewrite (initClusterInfo_found E st s H).
  split; [reflexivity|]. split; [reflexivity|].
  intros key Hkey. unfold dataString. rewrite Hkey. reflexivity.
Qed.

(** C5. Against a store whose get leaves the state as it is, two calls of
    [initClusterInfo] in a row on a state that holds the identity resource
    return the same identity, and the second call (like the first) writes
    nothing. *)
Theorem initClusterInfo_idempotent (E : Env) (st : St E) (s : Secret.t) :
  (∀ st' name, (handle E st' (SecretsGet ns name)).1 = st') →
  (handle E st (SecretsGet ns appName)).2 = (s, None) →
  result (run E (initClusterInfo X c) (final (run E (initClusterInfo X c) st)))
    = result (run E (initClusterInfo X c) st)
  ∧ writes (trace (run E (initClusterInfo X c)
                     (final (run E (initClusterInfo X c) st)))) = []
  ∧ writes (trace (run E (initClusterInfo X c) st)) = []
  ∧ final (run E (initClusterInfo X c) (final (run E (initClusterInfo X c) st))) = st.
Proof.
  intros Hpure Hfound.
  assert (Hst : final (run E (initClusterInfo X c) st) = st).
  { rewrite (initClusterInfo_found E st s Hfound). apply Hpure. }
  rewrite Hst. rewrite (initClusterInfo_found E st s Hfound).
  repeat split; try reflexivity. apply Hpure.
Qed.

(** *** The readiness poll *)

(** One round of the poll loop, unfolded. *)
Lemma run_waitLoop_S (E : Env) (st : St E) (pod : Pod.t) (n : nat) :
  run E (waitLoop c pod (S n)) st =
    let st1 := (handle E st (After 6)).1 in
    let r := handle E st1 (PodsGet ns (Pod.Name pod)) in
    let round := [(After 6, RDone); (PodsGet ns (Pod.Name pod), RPod r.2.1 r.2.2)] in
    match r.2.2 with
    | Some e =>
      (inr (Errorf ("failed to get mon pod " +:+ Pod.Name r.2.1 +:+ ". " +:+ Error e)),
       r.1, round)
    | None =>
      if String.eqb (Pod.Phase r.2.1) PodRunning
      then (inl (Pod.PodIP r.2.1), r.1, round)
      else (result (run E (waitLoop c pod n) r.1),
            final (run E (waitLoop c pod n) r.1),
            round ++ trace (run E (waitLoop c pod n) r.1))
    end.
Proof.
  change (waitLoop c pod (S n)) with
    (_ ← call (After 6);
     '(pod', err) ← call (PodsGet ns (Pod.Name pod));
     match err with
     | Some e =>
       mret (inr (Errorf ("failed to get mon pod " +:+ Pod.Name pod' +:+ ". " +:+ Error e)))
     | None =>
       if String.eqb (Pod.Phase pod') PodRunning
       then mret (inl (Pod.PodIP pod'))
       else waitLoop c pod n
     end).
  cbn -[String.eqb waitLoop append].
  destruct (handle E st (After 6)) as [st1 []]. cbn -[String.eqb waitLoop append].
  destruct (handle E st1 (PodsGet ns (Pod.Name pod))) as [st2 [p [e|]]];
    cbn -[String.eqb waitLoop append]; [reflexivity|].
  destruct (String.eqb (Pod.Phase p) PodRunning); reflexivity.
Qed.

Lemma rounds_cons (name : string) (r : Reply) (replies : list Reply) :
  rounds ns name (r :: replies)
  = (After 6, RDone) :: (PodsGet ns name, r) :: rounds ns name replies.
Proof. reflexivity. Qed.

Lemma fetches_rounds (name : string) (replies : list Reply) :
  fetches (rounds ns name replies) = replicate (length replies) name.
Proof.
  induction replies as [|r replies IH]; [reflexivity|].
  rewrite rounds_cons. cbn. f_equal. exact IH.
Qed.

(** While every fetch succeeds and shows a phase other than Running, the
    loop uses up all its rounds and times out. *)
Lemma waitLoop_never_running (E : Env) (pod : Pod.t) (n : nat) (st : St E) :
  (∀ st', ∃ p, (handle E st' (PodsGet ns (Pod.Name pod))).2 = (p, None)
               ∧ Pod.Phase p ≠ PodRunning) →
  result (run E (waitLoop c pod n) st)
    = inr (Errorf ("timed out waiting for pod " +:+ Pod.Name pod +:+ " to start"))
  ∧ ∃ replies, length replies = n
      ∧ trace (run E (waitLoop c pod n) st) = rounds ns (Pod.Name pod) replies.
Proof.
  intros Hpend. revert st. induction n as [|n IH]; intros st.
  - split; [reflexivity|]. exists []. split; reflexivity.
  - rewrite run_waitLoop_S. cbv zeta.
    destruct (Hpend (handle E st (After 6)).1) as (p & Hp & Hphase).
    rewrite Hp. cbn [fst snd].
    apply String.eqb_neq in Hphase. rewrite Hphase.
    destruct (IH (handle E (handle E st (After 6)).1 (PodsGet ns (Pod.Name pod))).1)
      as (Hres & replies & Hlen & Htr).
    split; [exact Hres|].
    exists (RPod p None :: replies). split; [simpl; by rewrite Hlen|].
    unfold trace at 1. cbn [snd]. rewrite Htr. reflexivity.
Qed.

(** C8. Against an instance whose every fetch succeeds and shows Pending,
    [waitForPodToStart] makes exactly 15 fetches of that instance, each one
    right after the pause of 6, and then fails with the time-out error that
    names the instance. *)
Theorem waitForPodToStart_always_pending (E : Env) (st : St E) (pod : Pod.t) :
  (∀ st', ∃ p, (handle E st' (PodsGet ns (Pod.Name pod))).2 = (p, None)
               ∧ Pod.Phase p = PodPending) →
  result (run E (waitForPodToStart c pod) st)
    = inr (Errorf ("timed out waiting for pod " +:+ Pod.Name pod +:+ " to start"))
  ∧ fetches (trace (run E (waitForPodToStart c pod) st)) = replicate 15 (Pod.Name pod)
  ∧ ∃ replies, length replies = 15%nat
      ∧ trace (run E (waitForPodToStart c pod) st) = rounds ns (Pod.Name pod) replies.
Proof.
  intros Hpend. unfold waitForPodToStart.
  destruct (waitLoop_never_running E pod 15 st) as (Hres & replies & Hlen & Htr).
  { intros st'. destruct (Hpend st') as (p & Hp & Hphase).
    exists p. split; [exact Hp|]. rewrite Hphase. discriminate. }
  split; [exact Hres|]. split.
  - rewrite Htr, fetches_rounds, Hlen. reflexivity.
  - exists replies. split; assumption.
Qed.

(** A failed fetch is the last thing a poll loop does, however many rounds
    are left. *)
Lemma waitLoop_fetch_failure (E : Env) (pod : Pod.t) (n : nat) (st : St E)
    (tr1 tr2 : list Event) (name : string) (p : Pod.t) (e : error) :
  trace (run E (waitLoop c pod n) st)
    = tr1 ++ (PodsGet ns name, RPod p (Some e)) :: tr2 →
  tr2 = []
  ∧ result (run E (waitLoop c pod n) st)
      = inr (Errorf ("failed to get mon pod " +:+ Pod.Name p +:+ ". " +:+ Error e)).
Proof.
  revert st tr1. induction n as [|n IH]; intros st tr1.
  - simpl. intros H. by destruct tr1.
  - rewrite run_waitLoop_S. cbv zeta.
    destruct (handle E (handle E st (After 6)).1 (PodsGet ns (Pod.Name pod)))
      as [st2 [p' err']]. cbn [fst snd].
    destruct err' as [e'|].
    + unfold trace, result. cbn [fst snd]. intros H.
      destruct tr1 as [|x [|y tr1]]; simplify_eq/=; [done|].
      by destruct tr1.
    + destruct (String.eqb (Pod.Phase p') PodRunning).
      * unfold trace. cbn [fst snd]. intros H.
        destruct tr1 as [|x [|y tr1]]; simplify_eq/=. by destruct tr1.
      * unfold trace at 1, result at 1. cbn [fst snd]. intros H.
        destruct tr1 as [|x [|y tr1]]; simplify_eq/=.
        eapply IH. eassumption.
Qed.

(** C9. When a status fetch inside [waitForPodToStart] fails, nothing
    follows it in the trace, neither fetch nor pause, and the call returns
    the error of that fetch, whichever of the 15 rounds it happens in. *)
Theorem waitForPodToStart_fetch_failure (E : Env) (st : St E) (pod : Pod.t)
    (tr1 tr2 : list Event) (name : string) (p : Pod.t) (e : error) :
  trace (run E (waitForPodToStart c pod) st)
    = tr1 ++ (PodsGet ns name, RPod p (Some e)) :: tr2 →
  tr2 = []
  ∧ result (run E (waitForPodToStart c pod) st)
      = inr (Errorf ("failed to get mon pod " +:+ Pod.Name p +:+ ". " +:+ Error e)).
Proof. apply waitLoop_fetch_failure. Qed.

(** *** The launcher loop *)

Lemma run_startLoop_cons (E : Env) (st : St E) (aa : bool) (m : MonConfig.t)
    (rest : list MonConfig.t) (info : ClusterInfo.t) (s a : Z) :
  run E (startLoop X c aa (m :: rest) info s a) st =
    let pod := makeMonPod X c m info aa in
    let r := handle E st (PodsCreate ns pod) in
    let ev : Event := (PodsCreate ns pod, RPod r.2.1 r.2.2) in
    match r.2.2 with
    | Some e =>
      if negb (IsKubernetesResourceAlreadyExistError e)
      then ((info, s, a,
             Some (Errorf ("failed to create mon pod " +:+ ns +:+ ". " +:+ Error e))),
            r.1, [ev])
      else (result (afterCreate E aa m rest info s (a + 1) r.1),
            final (afterCreate E aa m rest info s (a + 1) r.1),
            ev :: trace (afterCreate E aa m rest info s (a + 1) r.1))
    | None =>
      (result (afterCreate E aa m rest info (s + 1) a r.1),
       final (afterCreate E aa m rest info (s + 1) a r.1),
       ev :: trace (afterCreate E aa m rest info (s + 1) a r.1))
    end.
Proof.
  cbv zeta. unfold afterCreate.
  cbn -[waitForPodToStart append Z.add].
  destruct (handle E st (PodsCreate ns (makeMonPod X c m info aa))) as [st1 [p [e|]]];
    cbn -[waitForPodToStart append Z.add].
  - destruct (IsKubernetesResourceAlreadyExistError e); cbn -[waitForPodToStart append Z.add];
      [|reflexivity].
    rewrite run_mbind.
    destruct (result (run E (waitForPodToStart c (makeMonPod X c m info aa)) st1));
      [reflexivity|].
    unfold result, final, trace.
    cbn -[waitForPodToStart append Z.add]. by rewrite app_nil_r.
  - rewrite run_mbind.
    destruct (result (run E (waitForPodToStart c (makeMonPod X c m info aa)) st1));
      [reflexivity|].
    unfold result, final, trace.
    cbn -[waitForPodToStart append Z.add]. by rewrite app_nil_r.
Qed.

(** Every poll is a row of rounds, at least one when a round is allowed. *)
Lemma waitLoop_rounds (E : Env) (pod : Pod.t) (n : nat) (st : St E) :
  ∃ replies, trace (run E (waitLoop c pod n) st) = rounds ns (Pod.Name pod) replies
             ∧ (n ≠ 0%nat → replies ≠ []).
Proof.
  revert st. induction n as [|n IH]; intros st.
  - exists []. split; [reflexivity|]. intros H. by destruct H.
  - rewrite run_waitLoop_S. cbv zeta.
    destruct (handle E (handle E st (After 6)).1 (PodsGet ns (Pod.Name pod)))
      as [st2 [p err]]. cbn [fst snd].
    destruct err as [e|].
    + exists [RPod p (Some e)]. split; [reflexivity|done].
    + destruct (String.eqb (Pod.Phase p) PodRunning).
      * exists [RPod p None]. split; [reflexivity|done].
      * destruct (IH st2) as (replies & Htr & _).
        exists (RPod p None :: replies). split; [|done].
        unfold trace at 1. cbn [snd]. rewrite Htr. reflexivity.
Qed.

Lemma run_startLoop_LoopRun (E : Env) (aa : bool) (mons : list MonConfig.t) :
  ∀ (st : St E) (info : ClusterInfo.t) (s a : Z),
    LoopRun aa mons info
      (trace (run E (startLoop X c aa mons info s a) st))
      (result (run E (startLoop X c aa mons info s a) st)).1.1.1
      (result (run E (startLoop X c aa mons info s a) st)).2.
Proof.
  induction mons as [|m rest IH]; intros st info s a.
  - apply LoopDone.
  - rewrite run_startLoop_cons. cbv zeta.
    destruct (handle E st (PodsCreate ns (makeMonPod X c m info aa))) as [st1 [p err]].
    cbn [fst snd].
    assert (Hafter : ∀ s' a', accepted err = true →
      LoopRun aa (m :: rest) info
        ((PodsCreate ns (makeMonPod X c m info aa), RPod p err)
           :: trace (afterCreate E aa m rest info s' a' st1))
        (result (afterCreate E aa m rest info s' a' st1)).1.1.1
        (result (afterCreate E aa m rest info s' a' st1)).2).
    { intros s' a' Hacc. unfold afterCreate. cbv zeta.
      destruct (waitLoop_rounds E (makeMonPod X c m info aa) 15 st1)
        as (replies & Htr & Hne).
      specialize (Hne ltac:(done)).
      fold (waitForPodToStart c (makeMonPod X c m info aa)) in Htr.
      destruct (result (run E (waitForPodToStart c (makeMonPod X c m info aa)) st1))
        as [podIP|e].
      - unfold trace at 1, result at 1 3. cbn [fst snd]. rewrite Htr.
        eapply LoopNext; [exact Hacc|exact Hne|]. apply IH.
      - unfold trace at 1, result. cbn [fst snd]. rewrite Htr.
        by apply LoopWaitFails. }
    destruct err as [e|].
    + destruct (IsKubernetesResourceAlreadyExistError e) eqn:Hae; cbn [negb].
      * apply Hafter. exact Hae.
      * by apply LoopCreateFails.
    + by apply Hafter.
Qed.

Lemma creates_rounds (name : string) (replies : list Reply) :
  creates (rounds ns name replies) = [].
Proof. induction replies as [|r replies IH]; [reflexivity|]. rewrite rounds_cons. exact IH. Qed.

Lemma creates_app (tr1 tr2 : list Event) :
  creates (tr1 ++ tr2) = creates tr1 ++ creates tr2.
Proof. apply omap_app. Qed.

Lemma creates_block (ns0 name : string) (pod : Pod.t) (r : Reply)
    (replies : list Reply) (tr : list Event) :
  creates ((PodsCreate ns0 pod, r) :: rounds ns name replies ++ tr) = pod :: creates tr.
Proof.
  change (pod :: creates (rounds ns name replies ++ tr) = pod :: creates tr).
  by rewrite creates_app, creates_rounds.
Qed.

(** The loop touches nothing of the identity but the monitor map. *)
Lemma LoopRun_frame aa mons info tr info' err :
  LoopRun aa mons info tr info' err →
  ClusterInfo.Name info' = ClusterInfo.Name info
  ∧ ClusterInfo.FSID info' = ClusterInfo.FSID info
  ∧ ClusterInfo.MonitorSecret info' = ClusterInfo.MonitorSecret info
  ∧ ClusterInfo.AdminSecret info' = ClusterInfo.AdminSecret info.
Proof.
  induction 1 as [| | |m rest info p err replies podIP tr info' err' _ _ _ IH]; try done.
Qed.

(** Every entry of the map the loop leaves was there before or was put
    there for one of the specs. *)
Lemma LoopRun_monitors aa mons info tr info' err :
  LoopRun aa mons info tr info' err →
  ∀ name cfg, ClusterInfo.Monitors info' !! name = Some cfg →
    ClusterInfo.Monitors info !! name = Some cfg
    ∨ (name ∈ MonConfig.Name <$> mons ∧ ∃ addr, cfg = ToCephMon X name addr).
Proof.
  induction 1 as [| | |m rest info p err replies podIP tr info' err' _ _ _ IH];
    intros name cfg Hlook; try (by left).
  destruct (IH name cfg Hlook) as [Hold|[Hin Hcfg]].
  - cbn in Hold. destruct (decide (name = MonConfig.Name m)) as [->|Hne].
    + rewrite lookup_insert_eq in Hold. inversion Hold; subst.
      right. split; [rewrite fmap_cons; apply elem_of_cons; by left|]. by exists podIP.
    + rewrite lookup_insert_ne in Hold by done. by left.
  - right. split; [rewrite fmap_cons; apply elem_of_cons; by right|done].
Qed.

(** The creates of the loop are for the specs, in order, from the first on;
    for all of them when the loop returns no error. *)
Lemma LoopRun_creates aa mons info tr info' err :
  LoopRun aa mons info tr info' err →
  Forall2 madeFor (creates tr) (take (length (creates tr)) mons)
  ∧ (err = None → length (creates tr) = length mons)
  ∧ (mons ≠ [] → creates tr ≠ []).
Proof.
  induction 1 as [| | |m rest info p err replies podIP tr info' err' _ _ _ IH].
  - repeat split; try done.
  - repeat split; try done. cbn. constructor; [by eexists _, _|constructor].
  - rewrite <- (app_nil_r (rounds _ _ _)), creates_block.
    repeat split; try done. cbn. constructor; [by eexists _, _|constructor].
  - rewrite creates_block. destruct IH as (IH1 & IH2 & _).
    repeat split; try done.
    + cbn. constructor; [by eexists _, _|exact IH1].
    + intros Herr. cbn. f_equal. by apply IH2.
Qed.

(** Where a create sits in a block of the loop: at its head, or in what
    follows the poll rounds. *)
Lemma create_in_block (ev : Event) (name : string) (replies : list Reply)
    (tr tr1 tr2 : list Event) (ns0 : string) (pod : Pod.t) (r : Reply) :
  ev :: rounds ns name replies ++ tr = tr1 ++ (PodsCreate ns0 pod, r) :: tr2 →
  (tr1 = [] ∧ ev = (PodsCreate ns0 pod, r) ∧ tr2 = rounds ns name replies ++ tr)
  ∨ ∃ tr1', tr = tr1' ++ (PodsCreate ns0 pod, r) :: tr2.
Proof.
  intros H. destruct tr1 as [|x tr1].
  - left. by injection H as -> ->.
  - right. injection H as _ H. revert tr1 H.
    induction replies as [|r0 replies IH]; intros tr1 H.
    + by exists tr1.
    + rewrite rounds_cons in H.
      destruct tr1 as [|x1 [|x2 tr1]]; [discriminate H..|].
      injection H as _ _ H. by eapply IH.
Qed.

Lemma LoopRun_head aa mons info tr info' err :
  LoopRun aa mons info tr info' err →
  tr = [] ∨ ∃ pod' r rest', tr = (PodsCreate ns pod', r) :: rest'.
Proof. destruct 1; [by left|right; by eexists _, _, _..]. Qed.

Lemma LoopRun_waitFollows aa mons info tr info' err :
  LoopRun aa mons info tr info' err → waitFollows tr.
Proof.
  induction 1 as [| |m rest info p err replies e Hacc Hne
                  |m rest info p err replies podIP tr info' err' Hacc Hne Hrun IH];
    intros tr1 ns0 pod p0 err0 tr2 Heq Hacc0.
  - by destruct tr1.
  - destruct tr1 as [|x tr1]; simplify_eq/=; [|by destruct tr1].
    by rewrite H in Hacc0.
  - rewrite <- (app_nil_r (rounds _ _ _)) in Heq.
    apply create_in_block in Heq as [(-> & Hev & ->)|[tr1' Hnil]].
    + simplify_eq. exists replies, []. split; [done|]. split; [done|by left].
    + by destruct tr1'.
  - apply create_in_block in Heq as [(-> & Hev & ->)|[tr1' Htr]].
    + simplify_eq. exists replies, tr. split; [done|]. split; [done|].
      by eapply LoopRun_head.
    + by eapply IH.
Qed.

Lemma LoopRun_createFailureEnds aa mons info tr info' err :
  LoopRun aa mons info tr info' err → createFailureEnds tr err.
Proof.
  induction 1 as [| |m rest info p err replies e Hacc Hne
                  |m rest info p err replies podIP tr info' err' Hacc Hne Hrun IH];
    intros tr1 ns0 pod p0 e0 tr2 Heq Hfatal.
  - by destruct tr1.
  - destruct tr1 as [|x tr1]; simplify_eq/=; [done|by destruct tr1].
  - rewrite <- (app_nil_r (rounds _ _ _)) in Heq.
    apply create_in_block in Heq as [(-> & Hev & ->)|[tr1' Hnil]].
    + simplify_eq. cbn in Hacc. by rewrite Hfatal in Hacc.
    + by destruct tr1'.
  - apply create_in_block in Heq as [(-> & Hev & ->)|[tr1' Htr]].
    + simplify_eq. cbn in Hacc. by rewrite Hfatal in Hacc.
    + by eapply IH.
Qed.

(** *** The launcher *)

Lemma run_startPods_StartRun (E : Env) (st : St E)
    (info : ClusterInfo.t) (mons : list MonConfig.t) :
  StartRun info mons
    (trace (run E (startPods X c info mons) st))
    (result (run E (startPods X c info mons) st)).1
    (result (run E (startPods X c info mons) st)).2.
Proof.
  unfold startPods, getAntiAffinity, pollPods.
  cbn -[startLoop append bool_decide Z.of_nat].
  destruct (handle E st (NodesList "Node")) as [st1 [nodes [e|]]];
    cbn -[startLoop append bool_decide Z.of_nat].
  { apply StartNodesFail. }
  destruct (handle E st1 (PollPods ns (ClusterInfo.Name info)))
    as [st2 [[running pending] [e|]]]; cbn -[startLoop append bool_decide Z.of_nat].
  { apply StartListFail. }
  fold (reset info running). fold (spread nodes).
  case_bool_decide as Hsize; cbn -[startLoop append bool_decide Z.of_nat].
  { by apply StartAlready. }
  rewrite run_mbind.
  pose proof (run_startLoop_LoopRun E (spread nodes) mons st2 (reset info running) 0 0) as Hloop.
  destruct (run E (startLoop X c (spread nodes) mons (reset info running) 0 0) st2)
    as [[[[[info' s'] a'] err] st3] tr].
  unfold trace, result in *. cbn -[append] in *.
  rewrite app_nil_r. by apply StartLoop.
Qed.

Lemma recordRunning_snoc (l : list Pod.t) (p : Pod.t)
    (m0 : gmap string CephMonitorConfig.t) :
  recordRunning X (l ++ [p]) m0
  = <[Pod.Name p := ToCephMon X (Pod.Name p) (Pod.PodIP p)]> (recordRunning X l m0).
Proof. unfold recordRunning. by rewrite foldl_app. Qed.

(** Every entry of the recorded map comes from a listed instance, or was in
    the map before. *)
Lemma recordRunning_lookup_inv (l : list Pod.t) (m0 : gmap string CephMonitorConfig.t)
    (name : string) (cfg : CephMonitorConfig.t) :
  recordRunning X l m0 !! name = Some cfg →
  (∃ p, p ∈ l ∧ Pod.Name p = name ∧ cfg = ToCephMon X name (Pod.PodIP p))
  ∨ m0 !! name = Some cfg.
Proof.
  induction l as [|p l IH] using rev_ind; [by right|].
  rewrite recordRunning_snoc. intros Hlook.
  destruct (decide (name = Pod.Name p)) as [->|Hne].
  - rewrite lookup_insert_eq in Hlook. inversion Hlook; subst.
    left. exists p. split; [apply elem_of_app; right; by apply list_elem_of_singleton|done].
  - rewrite lookup_insert_ne in Hlook by done.
    destruct (IH Hlook) as [(q & Hq & Hname & Hcfg)|Hold]; [|by right].
    left. exists q. split; [apply elem_of_app; by left|done].
Qed.

(** Every listed instance has an entry under its name. *)
Lemma recordRunning_is_Some (l : list Pod.t) (m0 : gmap string CephMonitorConfig.t)
    (p : Pod.t) :
  p ∈ l → is_Some (recordRunning X l m0 !! Pod.Name p).
Proof.
  induction l as [|q l IH] using rev_ind; [by intros ?%elem_of_nil|].
  rewrite recordRunning_snoc. intros Hin.
  destruct (decide (Pod.Name p = Pod.Name q)) as [Heq|Hne].
  - rewrite Heq, lookup_insert_eq. by eexists.
  - rewrite lookup_insert_ne by done. apply IH.
    apply elem_of_app in Hin as [Hin|Hin]; [done|].
    apply list_elem_of_singleton in Hin. by subst.
Qed.

(** When the listed names differ from one another, the entry of an
    instance is built from its own name and address. *)
Lemma recordRunning_lookup (l : list Pod.t) (m0 : gmap string CephMonitorConfig.t)
    (p : Pod.t) :
  NoDup (Pod.Name <$> l) → p ∈ l →
  recordRunning X l m0 !! Pod.Name p = Some (ToCephMon X (Pod.Name p) (Pod.PodIP p)).
Proof.
  induction l as [|q l IH] using rev_ind; [by intros _ ?%elem_of_nil|].
  rewrite recordRunning_snoc, fmap_app. intros Hnd Hin.
  apply NoDup_app in Hnd as (Hnd & Hfresh & _).
  apply elem_of_app in Hin as [Hin|Hin].
  - rewrite lookup_insert_ne; [by apply IH|].
    intros Heq. apply (Hfresh (Pod.Name p)).
    + apply list_elem_of_fmap. by exists p.
    + rewrite <- Heq. cbn. apply list_elem_of_singleton. reflexivity.
  - apply list_elem_of_singleton in Hin. subst. by rewrite lookup_insert_eq.
Qed.

(** Open a proof about a run of [startPods]: bring in the shape of the run
    and name its parts. *)
Ltac open_startPods E st info mons Hrun info' err tr :=
  pose proof (run_startPods_StartRun E st info mons) as Hrun;
  let st' := fresh "st'" in
  destruct (run E (startPods X c info mons) st) as [[[info' err] st'] tr];
  unfold trace, result in *; cbn [fst snd] in *.

(** C7. When the instance listing succeeds and the number of instances it
    shows as Running equals [Size], [startPods] makes no call beyond the two
    listings (no create, no status fetch), returns no error, and leaves a
    monitor map that holds an entry for each Running instance and nothing
    else, each entry built from the name and address of such an instance
    (its own when the names differ from one another). *)
Theorem startPods_short_circuit (E : Env) (st : St E) (info : ClusterInfo.t)
    (mons : list MonConfig.t) (running pending : list Pod.t) :
  trace (run E (startPods X c info mons) st) !! 1%nat
    = Some (PollPods ns (ClusterInfo.Name info), RPoll running pending None) →
  Z.of_nat (length (running)) = Cluster.Size c →
  result (run E (startPods X c info mons) st) = (reset info running, None)
  ∧ length (trace (run E (startPods X c info mons) st)) = 2%nat
  ∧ creates (trace (run E (startPods X c info mons) st)) = []
  ∧ fetches (trace (run E (startPods X c info mons) st)) = []
  ∧ (∀ p, p ∈ running →
       is_Some (ClusterInfo.Monitors (reset info running) !! Pod.Name p))
  ∧ (∀ name cfg, ClusterInfo.Monitors (reset info running) !! name = Some cfg →
       ∃ p, p ∈ running ∧ Pod.Name p = name
            ∧ cfg = ToCephMon X name (Pod.PodIP p))
  ∧ (NoDup (Pod.Name <$> running) → ∀ p, p ∈ running →
       ClusterInfo.Monitors (reset info running) !! Pod.Name p
       = Some (ToCephMon X (Pod.Name p) (Pod.PodIP p))).
Proof.
  intros Hlist Hsize.
  open_startPods E st info mons Hrun info' err tr.
  assert (Hshape : info' = reset info running ∧ err = None ∧ length tr = 2%nat
                   ∧ creates tr = [] ∧ fetches tr = []).
  { inversion Hrun; subst; cbn in Hlist; simplify_eq; done. }
  destruct Hshape as (-> & -> & Hlen & Hcr & Hfe).
  repeat split; try done.
  - intros p Hp. by apply recordRunning_is_Some.
  - intros name cfg Hlook.
    apply recordRunning_lookup_inv in Hlook as [Hp|Hempty]; [done|].
    by rewrite lookup_empty in Hempty.
  - intros Hnd p Hp. by apply recordRunning_lookup.
Qed.

(** C3, as the code has it. [startPods] leaves the cluster name, the fsid
    and the two secrets as they were. The monitor map is not kept: unless a
    listing fails (then nothing is touched and an error comes back), the map
    is replaced, and every entry of the map it leaves is either built from a
    listed Running instance or was put there for one of the specs. *)
Theorem startPods_identity_frame (E : Env) (st : St E) (info : ClusterInfo.t)
    (mons : list MonConfig.t) :
  (ClusterInfo.Name (result (run E (startPods X c info mons) st)).1 = ClusterInfo.Name info
   ∧ ClusterInfo.FSID (result (run E (startPods X c info mons) st)).1 = ClusterInfo.FSID info
   ∧ ClusterInfo.MonitorSecret (result (run E (startPods X c info mons) st)).1
     = ClusterInfo.MonitorSecret info
   ∧ ClusterInfo.AdminSecret (result (run E (startPods X c info mons) st)).1
     = ClusterInfo.AdminSecret info)
  ∧ (((result (run E (startPods X c info mons) st)).2 ≠ None
      ∧ (result (run E (startPods X c info mons) st)).1 = info
      ∧ creates (trace (run E (startPods X c info mons) st)) = [])
     ∨ ∃ running pending,
         trace (run E (startPods X c info mons) st) !! 1%nat
           = Some (PollPods ns (ClusterInfo.Name info), RPoll running pending None)
         ∧ ∀ name cfg,
             ClusterInfo.Monitors (result (run E (startPods X c info mons) st)).1 !! name
               = Some cfg →
             (∃ p, p ∈ running ∧ Pod.Name p = name
                   ∧ cfg = ToCephMon X name (Pod.PodIP p))
             ∨ (name ∈ MonConfig.Name <$> mons ∧ ∃ addr, cfg = ToCephMon X name addr)).
Proof.
  open_startPods E st info mons Hrun info' err tr.
  inversion Hrun as [nodes e|nodes running pending e|nodes running pending Hsize|nodes running pending tr' i' e' Hsize Hloop];
    subst.
  - split; [done|]. left. done.
  - split; [done|]. left. done.
  - split; [done|]. right. exists running, pending. split; [done|].
    intros name cfg Hlook. left.
    apply recordRunning_lookup_inv in Hlook as [Hp|Hempty]; [done|].
    by rewrite lookup_empty in Hempty.
  - split; [exact (LoopRun_frame _ _ _ _ _ _ Hloop)|].
    right. exists running, pending. split; [done|].
    intros name cfg Hlook.
    destruct (LoopRun_monitors _ _ _ _ _ _ Hloop name cfg Hlook) as [Hold|Hnew];
      [|by right].
    left. apply recordRunning_lookup_inv in Hold as [Hp|Hempty]; [done|].
    by rewrite lookup_empty in Hempty.
Qed.

(** C4, as the code has it. Whether [startPods] creates depends only on the
    count of Running instances. When the count equals [Size], no create is
    issued. Otherwise creates are issued for the specs in their order from
    the first spec on, whether or not the instance of a spec is listed as
    Running: at least for the first spec, and for every spec when no error
    is returned. *)
Theorem startPods_creates_by_count (E : Env) (st : St E) (info : ClusterInfo.t)
    (mons : list MonConfig.t) (running pending : list Pod.t) :
  trace (run E (startPods X c info mons) st) !! 1%nat
    = Some (PollPods ns (ClusterInfo.Name info), RPoll running pending None) →
  (Z.of_nat (length (running)) = Cluster.Size c →
     creates (trace (run E (startPods X c info mons) st)) = [])
  ∧ (Z.of_nat (length (running)) ≠ Cluster.Size c →
     Forall2 madeFor
       (creates (trace (run E (startPods X c info mons) st)))
       (take (length (creates (trace (run E (startPods X c info mons) st)))) mons)
     ∧ (mons ≠ [] → creates (trace (run E (startPods X c info mons) st)) ≠ [])
     ∧ ((result (run E (startPods X c info mons) st)).2 = None →
        length (creates (trace (run E (startPods X c info mons) st))) = length mons)).
Proof.
  intros Hlist.
  open_startPods E st info mons Hrun info' err tr.
  inversion Hrun as [nodes e|nodes running' pending' e|nodes running' pending' Hsize|nodes running' pending' tr' i' e' Hsize Hloop];
    subst; cbn in Hlist; simplify_eq.
  - split; [done|]. intros Hne. by destruct Hne.
  - split; [intros Heq; by destruct Hsize|]. intros _.
    change (creates (_ :: _ :: tr')) with (creates tr').
    destruct (LoopRun_creates _ _ _ _ _ _ Hloop) as (Hall & Hlen & Hne).
    done.
Qed.

Lemma length_monConfigs : length (monConfigs X c) = Z.to_nat (Cluster.Size c).
Proof. unfold monConfigs. by rewrite length_fmap, length_seqZ. Qed.

Lemma names_monConfigs :
  MonConfig.Name <$> monConfigs X c = (λ i, "mon" +:+ pretty i) <$> seqZ 0 (Cluster.Size c).
Proof. unfold monConfigs. rewrite <- list_fmap_compose. reflexivity. Qed.

Lemma waitFollows_cons (ev : Event) (tr : list Event) :
  (∀ ns0 pod, ev.1 ≠ PodsCreate ns0 pod) → waitFollows tr → waitFollows (ev :: tr).
Proof.
  intros Hev Htr tr1 ns0 pod p err tr2 Heq Hacc.
  destruct tr1 as [|x tr1].
  - injection Heq as -> _. by destruct (Hev ns0 pod).
  - injection Heq as _ Heq. by eapply Htr.
Qed.

Lemma createFailureEnds_cons (ev : Event) (tr : list Event) (err : option error) :
  (∀ ns0 pod, ev.1 ≠ PodsCreate ns0 pod) →
  createFailureEnds tr err → createFailureEnds (ev :: tr) err.
Proof.
  intros Hev Htr tr1 ns0 pod p e tr2 Heq Hfatal.
  destruct tr1 as [|x tr1].
  - injection Heq as -> _. by destruct (Hev ns0 pod).
  - injection Heq as _ Heq. by eapply Htr.
Qed.

Lemma waitFollows_nil : waitFollows [].
Proof. intros tr1 ns0 pod p err tr2 Heq. by destruct tr1. Qed.

Lemma createFailureEnds_nil (err : option error) : createFailureEnds [] err.
Proof. intros tr1 ns0 pod p e tr2 Heq. by destruct tr1. Qed.

Lemma StartRun_waitFollows info mons tr info' err :
  StartRun info mons tr info' err → waitFollows tr ∧ createFailureEnds tr err.
Proof.
  destruct 1 as [nodes e|nodes running pending e|nodes running pending Hsize|nodes running pending tr i' e' Hsize Hloop].
  - split; [apply waitFollows_cons|apply createFailureEnds_cons]; try done.
    + apply waitFollows_nil.
    + apply createFailureEnds_nil.
  - split; [do 2 (apply waitFollows_cons; [done|])
           |do 2 (apply createFailureEnds_cons; [done|])].
    + apply waitFollows_nil.
    + apply createFailureEnds_nil.
  - split; [do 2 (apply waitFollows_cons; [done|])
           |do 2 (apply createFailureEnds_cons; [done|])].
    + apply waitFollows_nil.
    + apply createFailureEnds_nil.
  - split; [do 2 (apply waitFollows_cons; [done|])
           |do 2 (apply createFailureEnds_cons; [done|])].
    + by eapply LoopRun_waitFollows.
    + by eapply LoopRun_createFailureEnds.
Qed.

(** *** Saving a fresh identity *)

Lemma run_createMonSecretsAndSave_SaveRun (E : Env) (st : St E) :
  SaveRun (trace (run E (createMonSecretsAndSave X c) st))
          (result (run E (createMonSecretsAndSave X c) st)).
Proof.
  unfold createMonSecretsAndSave. cbn -[append insert].
  destruct (handle E st (CreateClusterInfo "")) as [st1 [info [e|]]]; cbn -[append insert].
  { apply SaveNoIdentity. }
  fold (identitySecret info).
  destruct (handle E st1 (SecretsCreate ns (identitySecret info))) as [st2 [s [e|]]];
    cbn -[append insert].
  { apply SaveIdentityFails. }
  fold (adminSecret info).
  destruct (handle E st2 (SecretsCreate ns (adminSecret info))) as [st3 [s' [e|]]];
    cbn -[append insert].
  - destruct (IsKubernetesResourceAlreadyExistError e) eqn:Hae; cbn -[append insert].
    + by apply SaveDone.
    + by apply SaveAdminFails.
  - by apply SaveDone.
Qed.

(** ** Further properties of the controller *)

(** *** The readiness poll, in every environment *)

Lemma Forall_keepsWaiting_cons (p : Pod.t) (init : list Reply) :
  String.eqb (Pod.Phase p) PodRunning = false →
  Forall keepsWaiting init → Forall keepsWaiting (RPod p None :: init).
Proof.
  intros Hp Hinit. constructor; [|done].
  exists p. split; [done|]. by apply String.eqb_neq.
Qed.

(** What a poll loop of [n] rounds can do: answer with the address of the
    first fetch that shows Running, give up at the first fetch that fails,
    or use up its rounds. *)
Lemma waitLoop_outcome (E : Env) (pod : Pod.t) (n : nat) (st : St E) :
  ∃ replies,
    trace (run E (waitLoop c pod n) st) = rounds ns (Pod.Name pod) replies
    ∧ (length replies ≤ n)%nat
    ∧ match result (run E (waitLoop c pod n) st) with
      | inl ip =>
          ∃ init p, replies = init ++ [RPod p None] ∧ Forall keepsWaiting init
                    ∧ Pod.Phase p = PodRunning ∧ Pod.PodIP p = ip
      | inr e =>
          (∃ init p e', replies = init ++ [RPod p (Some e')] ∧ Forall keepsWaiting init
             ∧ e = Errorf ("failed to get mon pod " +:+ Pod.Name p +:+ ". " +:+ Error e'))
          ∨ (length replies = n ∧ Forall keepsWaiting replies ∧ e = timedOut pod)
      end.
Proof.
  revert st. induction n as [|n IH]; intros st.
  - exists []. split; [done|]. split; [done|]. right. by repeat split.
  - rewrite run_waitLoop_S. cbv zeta.
    destruct (handle E (handle E st (After 6)).1 (PodsGet ns (Pod.Name pod)))
      as [st2 [p err]]. cbn [fst snd].
    destruct err as [e|].
    + exists [RPod p (Some e)]. split; [done|]. split; [simpl; lia|].
      left. by exists [], p, e.
    + destruct (String.eqb (Pod.Phase p) PodRunning) eqn:Hphase.
      * exists [RPod p None]. split; [done|]. split; [simpl; lia|].
        exists [], p. repeat split; try done. by apply String.eqb_eq.
      * destruct (IH st2) as (replies & Htr & Hlen & Hres).
        exists (RPod p None :: replies).
        split; [unfold trace at 1; cbn [snd]; by rewrite Htr|].
        split; [simpl; lia|].
        unfold result at 1. cbn [fst snd].
        destruct (result (run E (waitLoop c pod n) st2)) as [ip|e].
        -- destruct Hres as (init & q & -> & Hinit & Hq & Hip).
           exists (RPod p None :: init), q. repeat split; try done.
           by apply Forall_keepsWaiting_cons.
        -- destruct Hres as [(init & q & e' & -> & Hinit & He)|(Hn & Hall & He)].
           ++ left. exists (RPod p None :: init), q, e'. repeat split; try done.
              by apply Forall_keepsWaiting_cons.
           ++ right. repeat split; [simpl; by rewrite Hn| |done].
              by apply Forall_keepsWaiting_cons.
Qed.

Lemma waitLoop_rounds_positive (E : Env) (pod : Pod.t) (n : nat) (st : St E) :
  ∃ replies,
    trace (run E (waitLoop c pod (S n)) st) = rounds ns (Pod.Name pod) replies
    ∧ (1 ≤ length replies ≤ S n)%nat.
Proof.
  destruct (waitLoop_outcome E pod (S n) st) as (replies & Htr & Hlen & _).
  destruct (waitLoop_rounds E pod (S n) st) as (replies' & Htr' & Hne).
  exists replies. split; [done|]. split; [|done].
  destruct replies as [|r replies]; [|simpl; lia].
  rewrite Htr in Htr'. destruct replies' as [|r' replies']; [by destruct Hne|done].
Qed.

(** X1. Whatever the environment answers, [waitForPodToStart] makes at
    least one and at most 15 rounds, each the pause of 6 followed by one
    fetch of the pod it was given; it makes no other call. *)
Theorem waitForPodToStart_bounded (E : Env) (st : St E) (pod : Pod.t) :
  ∃ replies,
    trace (run E (waitForPodToStart c pod) st) = rounds ns (Pod.Name pod) replies
    ∧ (1 ≤ length replies ≤ 15)%nat
    ∧ fetches (trace (run E (waitForPodToStart c pod) st))
      = replicate (length replies) (Pod.Name pod).
Proof.
  destruct (waitLoop_rounds_positive E pod 14 st) as (replies & Htr & Hlen).
  exists replies. unfold waitForPodToStart. split; [done|]. split; [done|].
  by rewrite Htr, fetches_rounds.
Qed.

(** A fetch that shows Running is the last thing a poll loop does. *)
Lemma waitLoop_running_ends (E : Env) (pod : Pod.t) (n : nat) (st : St E)
    (tr1 tr2 : list Event) (name : string) (p : Pod.t) :
  trace (run E (waitLoop c pod n) st) = tr1 ++ (PodsGet ns name, RPod p None) :: tr2 →
  Pod.Phase p = PodRunning →
  tr2 = [] ∧ result (run E (waitLoop c pod n) st) = inl (Pod.PodIP p).
Proof.
  intros Heq Hrun. revert st tr1 Heq. induction n as [|n IH]; intros st tr1.
  - simpl. intros H. by destruct tr1.
  - rewrite run_waitLoop_S. cbv zeta.
    destruct (handle E (handle E st (After 6)).1 (PodsGet ns (Pod.Name pod)))
      as [st2 [p' err']]. cbn [fst snd].
    destruct err' as [e'|].
    + unfold trace. cbn [fst snd]. intros H.
      destruct tr1 as [|x [|y tr1]]; simplify_eq/=. by destruct tr1.
    + destruct (String.eqb (Pod.Phase p') PodRunning) eqn:Hphase.
      * unfold trace, result. cbn [fst snd]. intros H.
        destruct tr1 as [|x [|y tr1]]; simplify_eq/=; [done|by destruct tr1].
      * unfold trace at 1, result at 1. cbn [fst snd]. intros H.
        destruct tr1 as [|x [|y tr1]]; simplify_eq/=.
        -- apply String.eqb_neq in Hphase. done.
        -- by eapply IH.
Qed.

(** X2. When a status fetch inside [waitForPodToStart] succeeds and shows
    Running, nothing follows it in the trace and the call returns the
    address that fetch showed. *)
Theorem waitForPodToStart_running_ends (E : Env) (st : St E) (pod : Pod.t)
    (tr1 tr2 : list Event) (name : string) (p : Pod.t) :
  trace (run E (waitForPodToStart c pod) st)
    = tr1 ++ (PodsGet ns name, RPod p None) :: tr2 →
  Pod.Phase p = PodRunning →
  tr2 = [] ∧ result (run E (waitForPodToStart c pod) st) = inl (Pod.PodIP p).
Proof. apply waitLoop_running_ends. Qed.

(** X3. [waitForPodToStart] returns an address only from a fetch that
    showed Running: when it succeeds, its last fetch answered without error,
    showed Running and showed the address returned, and every fetch before
    it answered without error and showed another phase. *)
Theorem waitForPodToStart_success (E : Env) (st : St E) (pod : Pod.t) (ip : string) :
  result (run E (waitForPodToStart c pod) st) = inl ip →
  ∃ init p,
    trace (run E (waitForPodToStart c pod) st)
      = rounds ns (Pod.Name pod) (init ++ [RPod p None])
    ∧ Forall keepsWaiting init
    ∧ Pod.Phase p = PodRunning
    ∧ Pod.PodIP p = ip.
Proof.
  intros Hres. unfold waitForPodToStart in *.
  destruct (waitLoop_outcome E pod 15 st) as (replies & Htr & _ & Hout).
  rewrite Hres in Hout. destruct Hout as (init & p & -> & Hinit & Hp & Hip).
  by exists init, p.
Qed.

(** X4. [waitForPodToStart] reports the time-out only when its rounds are
    used up: then it made exactly 15 fetches, and each of them answered
    without error and showed a phase other than Running. *)
Theorem waitForPodToStart_timeout (E : Env) (st : St E) (pod : Pod.t) :
  result (run E (waitForPodToStart c pod) st) = inr (timedOut pod) →
  ∃ replies,
    trace (run E (waitForPodToStart c pod) st) = rounds ns (Pod.Name pod) replies
    ∧ length replies = 15%nat
    ∧ Forall keepsWaiting replies.
Proof.
  intros Hres. unfold waitForPodToStart in *.
  destruct (waitLoop_outcome E pod 15 st) as (replies & Htr & _ & Hout).
  rewrite Hres in Hout.
  destruct Hout as [(init & p & e' & _ & _ & He)|(Hlen & Hall & _)].
  - discriminate He.
  - by exists replies.
Qed.

(** *** The launcher: what it records and how it builds pods *)

Lemma addresses_app (tr1 tr2 : list Event) :
  addresses (tr1 ++ tr2) = addresses tr1 ++ addresses tr2.
Proof. apply omap_app. Qed.

Lemma addresses_rounds_waiting (name : string) (init : list Reply) :
  Forall keepsWaiting init → addresses (rounds ns name init) = [].
Proof.
  induction 1 as [|r init (p & -> & Hp) _ IH]; [done|].
  rewrite rounds_cons. cbn -[String.eqb].
  apply String.eqb_neq in Hp. rewrite Hp. exact IH.
Qed.

Lemma rounds_app (name : string) (l1 l2 : list Reply) :
  rounds ns name (l1 ++ l2) = rounds ns name l1 ++ rounds ns name l2.
Proof. unfold rounds. apply bind_app. Qed.

(** A poll that succeeds shows exactly one address, the one it returns. *)
Lemma addresses_wait_success (E : Env) (pod : Pod.t) (st : St E) (ip : string) :
  result (run E (waitForPodToStart c pod) st) = inl ip →
  addresses (trace (run E (waitForPodToStart c pod) st)) = [ip].
Proof.
  intros Hres. unfold waitForPodToStart in *.
  destruct (waitLoop_outcome E pod 15 st) as (replies & Htr & _ & Hout).
  rewrite Hres in Hout. destruct Hout as (init & p & -> & Hinit & Hp & Hip).
  rewrite Htr, rounds_app, addresses_app, addresses_rounds_waiting by done.
  cbn -[String.eqb]. apply String.eqb_eq in Hp. by rewrite Hp, Hip.
Qed.

(** A loop that returns no error has shown one address per spec, and has
    recorded each spec with its address, in order. *)
Lemma startLoop_records (E : Env) (aa : bool) (mons : list MonConfig.t) :
  ∀ (st : St E) (info : ClusterInfo.t) (s a : Z),
    (result (run E (startLoop X c aa mons info s a) st)).2 = None →
    length (addresses (trace (run E (startLoop X c aa mons info s a) st))) = length mons
    ∧ ClusterInfo.Monitors (result (run E (startLoop X c aa mons info s a) st)).1.1.1
      = recordStarted mons (addresses (trace (run E (startLoop X c aa mons info s a) st)))
          (ClusterInfo.Monitors info).
Proof.
  induction mons as [|m rest IH]; intros st info s a.
  - intros _. split; reflexivity.
  - rewrite run_startLoop_cons. cbv zeta.
    destruct (handle E st (PodsCreate ns (makeMonPod X c m info aa))) as [st1 [p err]].
    cbn [fst snd].
    assert (Hafter : ∀ s' a',
      (result (afterCreate E aa m rest info s' a' st1)).2 = None →
      length (addresses ((PodsCreate ns (makeMonPod X c m info aa), RPod p err)
                           :: trace (afterCreate E aa m rest info s' a' st1)))
        = length (m :: rest)
      ∧ ClusterInfo.Monitors (result (afterCreate E aa m rest info s' a' st1)).1.1.1
        = recordStarted (m :: rest)
            (addresses ((PodsCreate ns (makeMonPod X c m info aa), RPod p err)
                          :: trace (afterCreate E aa m rest info s' a' st1)))
            (ClusterInfo.Monitors info)).
    { intros s' a'. unfold afterCreate. cbv zeta.
      pose proof (addresses_wait_success E (makeMonPod X c m info aa) st1) as Haddr.
      destruct (result (run E (waitForPodToStart c (makeMonPod X c m info aa)) st1))
        as [podIP|e]; [|discriminate].
      specialize (Haddr podIP eq_refl).
      set (w := run E (waitForPodToStart c (makeMonPod X c m info aa)) st1) in *.
      set (out := run E (startLoop X c aa rest
                    (ClusterInfo.putMonitor info (MonConfig.Name m)
                       (ToCephMon X (MonConfig.Name m) podIP)) s' a') (final w)).
      change ((result out).2 = None →
              length (addresses (trace w ++ trace out)) = S (length rest)
              ∧ ClusterInfo.Monitors (result out).1.1.1
                = recordStarted (m :: rest) (addresses (trace w ++ trace out))
                    (ClusterInfo.Monitors info)).
      intros Hok. subst out. destruct (IH _ _ _ _ Hok) as [Hlen Hmon].
      rewrite addresses_app, Haddr. cbn [app length].
      split; [by rewrite Hlen|]. rewrite Hmon. reflexivity. }
    destruct err as [e|].
    + destruct (IsKubernetesResourceAlreadyExistError e); cbn [negb].
      * exact (Hafter s (a + 1)%Z).
      * discriminate.
    + exact (Hafter (s + 1)%Z a).
Qed.

Lemma recordStarted_snoc (mons : list MonConfig.t) (ips : list string)
    (m : MonConfig.t) (ip : string) (m0 : gmap string CephMonitorConfig.t) :
  length mons = length ips →
  recordStarted (mons ++ [m]) (ips ++ [ip]) m0
  = <[MonConfig.Name m := ToCephMon X (MonConfig.Name m) ip]> (recordStarted mons ips m0).
Proof.
  intros Hlen. unfold recordStarted. rewrite zip_with_app by done.
  by rewrite foldl_app.
Qed.

(** With names that differ from one another, the entry of a spec holds the
    address at the place of the spec. *)
Lemma recordStarted_lookup (mons : list MonConfig.t) (ips : list string)
    (m0 : gmap string CephMonitorConfig.t) (i : nat) (m : MonConfig.t) (ip : string) :
  length mons = length ips →
  NoDup (MonConfig.Name <$> mons) →
  mons !! i = Some m → ips !! i = Some ip →
  recordStarted mons ips m0 !! MonConfig.Name m
  = Some (ToCephMon X (MonConfig.Name m) ip).
Proof.
  revert ips i. induction mons as [|q mons IH] using rev_ind; intros ips i Hlen Hnd Hm Hip.
  - by rewrite lookup_nil in Hm.
  - destruct ips as [|ip' ips _] using rev_ind.
    { rewrite length_app in Hlen. simpl in Hlen. lia. }
    rewrite !length_app in Hlen. simpl in Hlen.
    assert (Hlen' : length mons = length ips) by lia.
    rewrite recordStarted_snoc by done.
    rewrite fmap_app in Hnd. apply NoDup_app in Hnd as (Hnd & Hfresh & _).
    destruct (decide (i < length mons)%nat) as [Hlt|Hge].
    + rewrite lookup_app_l in Hm by done.
      rewrite lookup_app_l in Hip by lia.
      rewrite lookup_insert_ne; [by eapply IH|].
      intros Heq. apply (Hfresh (MonConfig.Name m)).
      * apply list_elem_of_fmap. exists m. split; [done|]. by eapply list_elem_of_lookup_2.
      * rewrite <- Heq. cbn. apply list_elem_of_singleton. reflexivity.
    + assert (i = length mons) as ->.
      { apply lookup_lt_Some in Hm. rewrite length_app in Hm. simpl in Hm. lia. }
      rewrite list_lookup_middle in Hm by done.
      rewrite Hlen', list_lookup_middle in Hip by done.
      simplify_eq. by rewrite lookup_insert_eq.
Qed.

(** X5. When [startPods] goes through its loop and returns no error, the
    trace shows exactly one Running address per spec, and the monitor map it
    leaves is the map of the running instances with each spec recorded on
    top, in order, under its name with the address its pod showed when it
    became Running; with spec names that differ from one another, the entry
    of every spec is built from its name and that address. *)
Theorem startPods_records_addresses (E : Env) (st : St E) (info : ClusterInfo.t)
    (mons : list MonConfig.t) (running pending : list Pod.t) :
  trace (run E (startPods X c info mons) st) !! 1%nat
    = Some (PollPods ns (ClusterInfo.Name info), RPoll running pending None) →
  Z.of_nat (length running) ≠ Cluster.Size c →
  (result (run E (startPods X c info mons) st)).2 = None →
  length (addresses (trace (run E (startPods X c info mons) st))) = length mons
  ∧ ClusterInfo.Monitors (result (run E (startPods X c info mons) st)).1
    = recordStarted mons (addresses (trace (run E (startPods X c info mons) st)))
        (recordRunning X running ∅)
  ∧ (NoDup (MonConfig.Name <$> mons) →
     ∀ i m ip, mons !! i = Some m →
       addresses (trace (run E (startPods X c info mons) st)) !! i = Some ip →
       ClusterInfo.Monitors (result (run E (startPods X c info mons) st)).1
         !! MonConfig.Name m
       = Some (ToCephMon X (MonConfig.Name m) ip)).
Proof.
  intros Hlist Hsize Hok.
  assert (Hmain :
    length (addresses (trace (run E (startPods X c info mons) st))) = length mons
    ∧ ClusterInfo.Monitors (result (run E (startPods X c info mons) st)).1
      = recordStarted mons (addresses (trace (run E (startPods X c info mons) st)))
          (recordRunning X running ∅)).
  { revert Hlist Hok.
    unfold startPods, getAntiAffinity, pollPods.
    cbn -[startLoop append bool_decide Z.of_nat].
    destruct (handle E st (NodesList "Node")) as [st1 [nodes [e|]]];
      cbn -[startLoop append bool_decide Z.of_nat]; [done|].
    destruct (handle E st1 (PollPods ns (ClusterInfo.Name info)))
      as [st2 [[running' pending'] [e|]]];
      cbn -[startLoop append bool_decide Z.of_nat]; [done|].
    intros Hlist. assert (running' = running) as -> by congruence.
    case_bool_decide as Hsize'; [done|].
    rewrite run_mbind.
    pose proof (startLoop_records E (bool_decide (Cluster.Size c ≤ Z.of_nat (length nodes))%Z)
                  mons st2 (ClusterInfo.setMonitors info (recordRunning X running ∅)) 0 0)
      as Hloop.
    destruct (run E (startLoop X c _ mons _ 0 0) st2) as [[[[[info' s'] a'] err] st3] tr].
    unfold trace, result in *. cbn -[append] in *.
    intros Hok. rewrite app_nil_r. by apply Hloop. }
  destruct Hmain as [Hlen Hmon]. split; [done|]. split; [done|].
  intros Hnd i m ip Hm Hip. rewrite Hmon. by eapply recordStarted_lookup.
Qed.

(** Every pod a loop creates is built with the flag the loop was given. *)
Lemma LoopRun_flag aa mons info tr info' err :
  LoopRun aa mons info tr info' err →
  Forall (λ pod, ∃ m i, m ∈ mons ∧ pod = makeMonPod X c m i aa) (creates tr).
Proof.
  induction 1 as [| | |m rest info p err replies podIP tr info' err' _ _ _ IH].
  - constructor.
  - cbn. constructor; [|constructor]. eexists _, _. split; [apply elem_of_cons; by left|done].
  - rewrite <- (app_nil_r (rounds _ _ _)), creates_block.
    constructor; [|constructor]. eexists _, _. split; [apply elem_of_cons; by left|done].
  - rewrite creates_block. constructor.
    + eexists _, _. split; [apply elem_of_cons; by left|done].
    + eapply Forall_impl; [exact IH|]. intros pod (m' & i & Hin & ->).
      exists m', i. split; [apply elem_of_cons; by right|done].
Qed.

(** X6. Every pod [startPods] creates is built by [makeMonPod] for one of
    the given specs, with the anti-affinity flag that [getAntiAffinity]
    computes from the node listing of this run: the flag is set exactly when
    [Size] is at most the number of nodes listed. *)
Theorem startPods_antiaffinity_flag (E : Env) (st : St E) (info : ClusterInfo.t)
    (mons : list MonConfig.t) (nodes : list string) :
  trace (run E (startPods X c info mons) st) !! 0%nat
    = Some (NodesList "Node", RNodes nodes None) →
  Forall (λ pod, ∃ m i, m ∈ mons
            ∧ pod = makeMonPod X c m i
                      (bool_decide (Cluster.Size c ≤ Z.of_nat (length nodes))%Z))
         (creates (trace (run E (startPods X c info mons) st))).
Proof.
  intros Hnodes.
  open_startPods E st info mons Hrun info' err tr.
  inversion Hrun as [nodes' e|nodes' running pending e|nodes' running pending Hsize
                    |nodes' running pending tr' i' e' Hsize Hloop];
    subst; cbn in Hnodes; simplify_eq; try by constructor.
  change (creates (_ :: _ :: tr')) with (creates tr').
  exact (LoopRun_flag _ _ _ _ _ _ Hloop).
Qed.

(** *** The specs [Start] builds *)

Lemma monName_inj : Inj (=) (=) (λ i : Z, "mon" +:+ pretty i).
Proof.
  intros i j Heq. cbn in Heq. injection Heq as Heq. by apply (inj pretty).
Qed.

(** X7. The specs [Start] builds are [Size] many (none when [Size] is
    negative), the spec at index [i] is named mon followed by the decimal
    of [i], all are on [mon.Port], and their names differ from one
    another. *)
Theorem monConfigs_names_distinct :
  length (monConfigs X c) = Z.to_nat (Cluster.Size c)
  ∧ NoDup (MonConfig.Name <$> monConfigs X c)
  ∧ (∀ i m, monConfigs X c !! i = Some m →
       MonConfig.Name m = "mon" +:+ pretty (Z.of_nat i) ∧ MonConfig.Port m = monPort X).
Proof.
  split; [apply length_monConfigs|]. split.
  - rewrite names_monConfigs.
    apply (@NoDup_fmap_2 _ _ _ monName_inj), NoDup_seqZ.
  - intros i m Hm. unfold monConfigs in Hm.
    apply list_lookup_fmap_Some in Hm as (z & -> & Hz).
    apply lookup_seqZ in Hz as [-> _]. by rewrite Z.add_0_l.
Qed.

(** *** Resolving and saving the identity *)

Lemma run_initClusterInfo (E : Env) (st : St E) :
  run E (initClusterInfo X c) st =
    let r := handle E st (SecretsGet ns appName) in
    let ev : Event := (SecretsGet ns appName, RSecret r.2.1 r.2.2) in
    match r.2.2 with
    | Some e =>
      if negb (IsKubernetesResourceNotFoundError e)
      then (inr (Errorf ("failed to get mon secrets. " +:+ Error e)), r.1, [ev])
      else (result (run E (createMonSecretsAndSave X c) r.1),
            final (run E (createMonSecretsAndSave X c) r.1),
            ev :: trace (run E (createMonSecretsAndSave X c) r.1))
    | None => (inl (decoded r.2.1), r.1, [ev])
    end.
Proof.
  unfold initClusterInfo. cbn -[createMonSecretsAndSave append].
  destruct (handle E st (SecretsGet ns appName)) as [st1 [s [e|]]];
    cbn -[createMonSecretsAndSave append]; [|reflexivity].
  destruct (IsKubernetesResourceNotFoundError e); reflexivity.
Qed.

Lemma SaveRun_generates tr res :
  SaveRun tr res → ∃ info err tr', tr = (CreateClusterInfo "", RInfo info err) :: tr'.
Proof. destruct 1; by eexists _, _, _. Qed.

(** X8. [initClusterInfo] asks for a new identity exactly when its get
    fails with NotFound. A get that fails otherwise is fatal: it is the only
    call, and its error comes back as failed to get mon secrets. *)
Theorem initClusterInfo_generates_only_on_not_found (E : Env) (st : St E)
    (s : Secret.t) (err : option error) :
  trace (run E (initClusterInfo X c) st) !! 0%nat
    = Some (SecretsGet ns appName, RSecret s err) →
  (CreateClusterInfo "" ∈ (trace (run E (initClusterInfo X c) st)).*1
   ↔ ∃ e, err = Some e ∧ IsKubernetesResourceNotFoundError e = true)
  ∧ (∀ e, err = Some e → IsKubernetesResourceNotFoundError e = false →
       result (run E (initClusterInfo X c) st)
         = inr (Errorf ("failed to get mon secrets. " +:+ Error e))
       ∧ trace (run E (initClusterInfo X c) st) = [(SecretsGet ns appName, RSecret s err)]).
Proof.
  rewrite run_initClusterInfo. cbv zeta.
  destruct (handle E st (SecretsGet ns appName)) as [st1 [s' [e'|]]]; cbn [fst snd].
  - destruct (IsKubernetesResourceNotFoundError e') eqn:Hnf; cbn [negb].
    + pose proof (SaveRun_generates _ _ (run_createMonSecretsAndSave_SaveRun E st1))
        as (info & err0 & tr' & Htr').
      destruct (run E (createMonSecretsAndSave X c) st1) as [[res st2] tr].
      unfold trace, result in *. cbn [fst snd] in *. subst tr.
      intros Hget. simplify_eq/=.
      split.
      * split; [intros _; by exists e'|intros _].
        apply elem_of_cons. right. apply elem_of_cons. by left.
      * intros e He Hne. simplify_eq. by rewrite Hnf in Hne.
    + unfold trace, result. cbn [fst snd]. intros Hget. simplify_eq/=.
      split.
      * split.
        -- intros Hin. apply elem_of_cons in Hin as [Hin|Hin]; [done|].
           by apply elem_of_nil in Hin.
        -- intros (e & He & Hnf'). simplify_eq. by rewrite Hnf in Hnf'.
      * intros e He _. by simplify_eq.
  - unfold trace, result. cbn [fst snd]. intros Hget. simplify_eq/=.
    split.
    + split.
      * intros Hin. apply elem_of_cons in Hin as [Hin|Hin]; [done|].
        by apply elem_of_nil in Hin.
      * by intros (e & He & _).
    + by intros e He.
Qed.

(** X9. When [createMonSecretsAndSave] returns an identity, that identity
    is the generated one and it has been saved: the run is the generation,
    then the create of the identity secret (the four fields under their four
    keys), which succeeded, then the create of the rook-admin secret (the
    admin secret under key), which succeeded or reported AlreadyExists. *)
Theorem createMonSecretsAndSave_success (E : Env) (st : St E) (info : ClusterInfo.t) :
  result (run E (createMonSecretsAndSave X c) st) = inl info →
  ∃ s s' err,
    trace (run E (createMonSecretsAndSave X c) st)
      = [(CreateClusterInfo "", RInfo info None);
         (SecretsCreate ns (identitySecret info), RSecret s None);
         (SecretsCreate ns (adminSecret info), RSecret s' err)]
    ∧ accepted err = true.
Proof.
  pose proof (run_createMonSecretsAndSave_SaveRun E st) as Hrun.
  destruct (run E (createMonSecretsAndSave X c) st) as [[res st'] tr].
  unfold trace, result in *. cbn [fst snd] in *. intros ->.
  inversion Hrun as [| | |info0 s s' err Hacc Htr]; subst. by exists s, s', err.
Qed.

(** X10. In every run of [createMonSecretsAndSave] the writes are, in this
    order, at most the create of the identity secret and then the create of
    the rook-admin secret: the credential is never written before the
    identity, and never after a failed write of the identity. When the
    generation fails nothing is written. *)
Theorem createMonSecretsAndSave_write_order (E : Env) (st : St E)
    (info : ClusterInfo.t) (err : option error) :
  trace (run E (createMonSecretsAndSave X c) st) !! 0%nat
    = Some (CreateClusterInfo "", RInfo info err) →
  (writes (trace (run E (createMonSecretsAndSave X c) st))).*1
    `prefix_of` [SecretsCreate ns (identitySecret info);
                 SecretsCreate ns (adminSecret info)]
  ∧ (err ≠ None → writes (trace (run E (createMonSecretsAndSave X c) st)) = [])
  ∧ (∀ s e, (SecretsCreate ns (identitySecret info), RSecret s (Some e))
              ∈ trace (run E (createMonSecretsAndSave X c) st) →
       length (writes (trace (run E (createMonSecretsAndSave X c) st))) = 1%nat).
Proof.
  intros Hgen.
  pose proof (run_createMonSecretsAndSave_SaveRun E st) as Hrun.
  destruct (run E (createMonSecretsAndSave X c) st) as [[res st'] tr].
  unfold trace, result in *. cbn [fst snd] in *.
  inversion Hrun as [info0 e0|info0 s0 e0|info0 s0 s1 e0 Hfatal|info0 s0 s1 err0 Hacc];
    subst; cbn in Hgen; simplify_eq.
  - split; [apply prefix_nil|]. split; [done|].
    intros s e Hin. apply elem_of_cons in Hin as [Hin|Hin]; [done|].
    by apply elem_of_nil in Hin.
  - split; [by exists [SecretsCreate ns (adminSecret info)]|]. split; [done|].
    done.
  - split; [by exists []|]. split; [done|].
    intros s e Hin.
    repeat (apply elem_of_cons in Hin as [Hin|Hin]; [by simplify_eq|]).
    by apply elem_of_nil in Hin.
  - split; [by exists []|]. split; [done|].
    intros s e Hin.
    repeat (apply elem_of_cons in Hin as [Hin|Hin]; [by simplify_eq|]).
    by apply elem_of_nil in Hin.
Qed.

(** *** [Start]: resolve, then launch *)

Lemma run_Start (E : Env) (st : St E) :
  run E (Start X c) st =
    match result (run E (initClusterInfo X c) st) with
    | inr e =>
      (inr (Errorf ("failed to initialize ceph cluster info. " +:+ Error e)),
       final (run E (initClusterInfo X c) st),
       trace (run E (initClusterInfo X c) st))
    | inl info =>
      (match (result (run E (startPods X c info (monConfigs X c))
                        (final (run E (initClusterInfo X c) st)))).2 with
       | Some e => inr (Errorf ("failed to start mon pods. " +:+ Error e))
       | None => inl (result (run E (startPods X c info (monConfigs X c))
                                (final (run E (initClusterInfo X c) st)))).1
       end,
       final (run E (startPods X c info (monConfigs X c))
                (final (run E (initClusterInfo X c) st))),
       trace (run E (initClusterInfo X c) st)
         ++ trace (run E (startPods X c info (monConfigs X c))
                     (final (run E (initClusterInfo X c) st))))
    end.
Proof.
  unfold Start. rewrite run_mbind.
  destruct (result (run E (initClusterInfo X c) st)) as [info|e].
  - rewrite run_mbind.
    destruct (run E (startPods X c info (monConfigs X c))
                (final (run E (initClusterInfo X c) st))) as [[[info' [e|]] st2] tr2];
      unfold result, final, trace; cbn -[append]; by rewrite ?app_nil_r.
  - unfold result, final, trace. cbn -[append]. by rewrite app_nil_r.
Qed.

Lemma SaveRun_onIdentity tr res :
  SaveRun tr res → Forall (λ ev : Event, onIdentity ev.1 = true) tr.
Proof. destruct 1; repeat constructor. Qed.

Lemma initClusterInfo_onIdentity (E : Env) (st : St E) :
  Forall (λ ev : Event, onIdentity ev.1 = true) (trace (run E (initClusterInfo X c) st)).
Proof.
  rewrite run_initClusterInfo. cbv zeta.
  destruct (handle E st (SecretsGet ns appName)) as [st1 [s [e|]]]; cbn [fst snd].
  - destruct (IsKubernetesResourceNotFoundError e); cbn [negb].
    + unfold trace at 1. cbn [snd]. constructor; [done|].
      eapply SaveRun_onIdentity, run_createMonSecretsAndSave_SaveRun.
    + by repeat constructor.
  - by repeat constructor.
Qed.

Lemma rounds_not_onIdentity (name : string) (replies : list Reply) :
  Forall (λ ev : Event, onIdentity ev.1 = false) (rounds ns name replies).
Proof.
  induction replies as [|r replies IH]; [constructor|].
  rewrite rounds_cons. by repeat constructor.
Qed.

Lemma LoopRun_not_onIdentity aa mons info tr info' err :
  LoopRun aa mons info tr info' err → Forall (λ ev : Event, onIdentity ev.1 = false) tr.
Proof.
  induction 1 as [| | |m rest info p err replies podIP tr info' err' _ _ _ IH].
  - constructor.
  - by repeat constructor.
  - constructor; [done|]. apply rounds_not_onIdentity.
  - constructor; [done|]. apply Forall_app. split; [apply rounds_not_onIdentity|done].
Qed.

Lemma StartRun_not_onIdentity info mons tr info' err :
  StartRun info mons tr info' err → Forall (λ ev : Event, onIdentity ev.1 = false) tr.
Proof.
  destruct 1 as [| | |nodes running pending tr i' e' Hsize Hloop];
    try by repeat constructor.
  do 2 (constructor; [done|]). by eapply LoopRun_not_onIdentity.
Qed.

Lemma StartRun_frame info mons tr info' err :
  StartRun info mons tr info' err →
  ClusterInfo.Name info' = ClusterInfo.Name info
  ∧ ClusterInfo.FSID info' = ClusterInfo.FSID info
  ∧ ClusterInfo.MonitorSecret info' = ClusterInfo.MonitorSecret info
  ∧ ClusterInfo.AdminSecret info' = ClusterInfo.AdminSecret info.
Proof.
  destruct 1 as [| | |nodes running pending tr i' e' Hsize Hloop]; try done.
  exact (LoopRun_frame _ _ _ _ _ _ Hloop).
Qed.

(** When [initClusterInfo] returns an identity, the store is known to keep
    it. *)
Lemma initClusterInfo_success_kept (E : Env) (st : St E) (info : ClusterInfo.t) :
  result (run E (initClusterInfo X c) st) = inl info →
  identityKept (trace (run E (initClusterInfo X c) st)).
Proof.
  rewrite run_initClusterInfo. cbv zeta.
  destruct (handle E st (SecretsGet ns appName)) as [st1 [s [e|]]]; cbn [fst snd].
  - destruct (IsKubernetesResourceNotFoundError e); cbn [negb]; [|done].
    pose proof (run_createMonSecretsAndSave_SaveRun E st1) as Hrun.
    destruct (run E (createMonSecretsAndSave X c) st1) as [[res st2] tr].
    unfold trace, result in *. cbn [fst snd] in *. intros ->.
    inversion Hrun as [| | |info0 s0 s1 err Hacc]; subst.
    right. exists info, s0. do 2 (apply elem_of_cons; right). apply elem_of_cons. by left.
  - intros _. left. exists s. apply elem_of_cons. by left.
Qed.

(** Where an event lies that the first part of a trace cannot hold. *)
Lemma split_after (P : Event → Prop) (t1 t2 tr1 tr2 : list Event) (ev : Event) :
  Forall P t1 → ¬ P ev → tr1 ++ ev :: tr2 = t1 ++ t2 →
  ∃ tr1', tr1 = t1 ++ tr1'.
Proof.
  revert tr1. induction t1 as [|x t1 IH]; intros tr1 Hall Hev Heq; [by exists tr1|].
  apply Forall_cons in Hall as [Hx Hall].
  destruct tr1 as [|y tr1].
  - injection Heq as -> _. done.
  - injection Heq as -> Heq. destruct (IH tr1 Hall Hev Heq) as [tr1' ->]. by exists tr1'.
Qed.

(** X11. [Start] creates a monitor pod only once the identity is known to
    be kept by the store: before every create of a pod in its trace lies
    either the get that found the identity secret or the successful create
    of the identity secret. *)
Theorem Start_creates_pods_after_identity (E : Env) (st : St E)
    (tr1 tr2 : list Event) (ns0 : string) (pod : Pod.t) (r : Reply) :
  trace (run E (Start X c) st) = tr1 ++ (PodsCreate ns0 pod, r) :: tr2 →
  identityKept tr1.
Proof.
  rewrite run_Start.
  pose proof (initClusterInfo_onIdentity E st) as Hident.
  pose proof (initClusterInfo_success_kept E st) as Hkept.
  destruct (result (run E (initClusterInfo X c) st)) as [info|e].
  - unfold trace at 1. cbn [snd]. intros Heq.
    assert (Hev : ¬ onIdentity (PodsCreate ns0 pod, r).1 = true) by done.
    symmetry in Heq.
    destruct (split_after _ _ _ _ _ _ Hident Hev Heq) as [tr1' ->].
    destruct (Hkept info eq_refl) as [(s & Hs)|(i & s & Hs)].
    + left. exists s. apply elem_of_app. by left.
    + right. exists i, s. apply elem_of_app. by left.
  - unfold trace at 1. cbn [snd]. intros Heq.
    rewrite Heq in Hident. apply Forall_app in Hident as [_ Hident].
    apply Forall_cons in Hident as [Hident _]. done.
Qed.

(** X12. When the identity secret is found, [Start] neither generates an
    identity nor writes a secret, and the identity it returns carries the
    cluster name, fsid and secrets read from that secret. *)
Theorem Start_keeps_persisted_identity (E : Env) (st : St E) (s : Secret.t) :
  (handle E st (SecretsGet ns appName)).2 = (s, None) →
  Forall (λ ev : Event, ∀ ns0 secret prefix,
            ev.1 ≠ SecretsCreate ns0 secret ∧ ev.1 ≠ CreateClusterInfo prefix)
         (trace (run E (Start X c) st))
  ∧ ∀ info, result (run E (Start X c) st) = inl info →
      ClusterInfo.Name info = dataString s clusterSecretName
      ∧ ClusterInfo.FSID info = dataString s fsidSecretName
      ∧ ClusterInfo.MonitorSecret info = dataString s monSecretName
      ∧ ClusterInfo.AdminSecret info = dataString s adminSecretName.
Proof.
  intros Hfound. rewrite run_Start, (initClusterInfo_found E st s Hfound).
  pose proof (run_startPods_StartRun E (handle E st (SecretsGet ns appName)).1
                (decoded s) (monConfigs X c)) as Hrun.
  unfold result, final, trace in *. cbn [fst snd] in *.
  destruct (run E (startPods X c (decoded s) (monConfigs X c))
              (handle E st (SecretsGet ns appName)).1) as [[[info' err] st2] tr2].
  unfold result, trace in *. cbn [fst snd] in *. split.
  - constructor; [done|].
    eapply Forall_impl; [exact (StartRun_not_onIdentity _ _ _ _ _ Hrun)|].
    intros [c0 r0] Hc ns0 secret prefix. cbn in *. by destruct c0.
  - intros info Hres. destruct err as [e|]; [done|]. injection Hres as <-.
    exact (StartRun_frame _ _ _ _ _ Hrun).
Qed.

(** X13. Every error [Start] returns names the stage that failed and
    carries its cause: it is failed to initialize ceph cluster info followed
    by the error of [initClusterInfo] when the identity could not be
    resolved (then no launcher call was made), and failed to start mon pods
    followed by the error of [startPods], run on the resolved identity with
    the specs of [Start], otherwise. *)
Theorem Start_errors_name_their_stage (E : Env) (st : St E) (e : error) :
  result (run E (Start X c) st) = inr e →
  (∃ cause, result (run E (initClusterInfo X c) st) = inr cause
            ∧ e = Errorf ("failed to initialize ceph cluster info. " +:+ Error cause)
            ∧ trace (run E (Start X c) st) = trace (run E (initClusterInfo X c) st))
  ∨ (∃ info cause,
       result (run E (initClusterInfo X c) st) = inl info
       ∧ (result (run E (startPods X c info (monConfigs X c))
                    (final (run E (initClusterInfo X c) st)))).2 = Some cause
       ∧ e = Errorf ("failed to start mon pods. " +:+ Error cause)).
Proof.
  rewrite run_Start.
  destruct (result (run E (initClusterInfo X c) st)) as [info|cause].
  - unfold result at 1. cbn [fst snd].
    destruct (result (run E (startPods X c info (monConfigs X c))
                        (final (run E (initClusterInfo X c) st)))).2
      as [cause|] eqn:Hpods; [|done].
    intros Hres. injection Hres as <-. right. exists info, cause.
    split; [done|]. split; [exact Hpods|done].
  - unfold result at 1. cbn [fst snd]. intros Hres. injection Hres as <-.
    left. by exists cause.
Qed.

(** *** Saving and reading back *)

(** The found path reads back what the create path saved: the keys agree,
    and the bytes the store keeps for a string convert back to it. *)
Lemma decoded_stored (info : ClusterInfo.t) :
  decoded (storedSecret (identitySecret info)) = ClusterInfo.setMonitors info ∅.
Proof.
  unfold decoded, dataString, storedSecret, identitySecret, ClusterInfo.setMonitors.
  cbn [Secret.Data Secret.StringData].
  rewrite !lookup_union, !lookup_fmap, !lookup_empty.
  rewrite (lookup_insert_ne _ adminSecretName clusterSecretName) by done.
  rewrite (lookup_insert_ne _ monSecretName clusterSecretName) by done.
  rewrite (lookup_insert_ne _ fsidSecretName clusterSecretName) by done.
  rewrite (lookup_insert_ne _ adminSecretName fsidSecretName) by done.
  rewrite (lookup_insert_ne _ monSecretName fsidSecretName) by done.
  rewrite (lookup_insert_ne _ adminSecretName monSecretName) by done.
  rewrite !lookup_insert_eq. cbn -[string_of_list_byte list_byte_of_string].
  unfold id. by rewrite !string_of_list_byte_of_string.
Qed.

(** X14. Against a store that holds no identity secret yet, a first
    [initClusterInfo] returns the generated identity; a second one, on the
    state the first left, writes nothing and returns the same cluster name,
    fsid and secrets, read back from the saved secret, with an empty monitor
    map. *)
Theorem initClusterInfo_saved_identity_reads_back (gen : ClusterInfo.t)
    (st : gmap (string * string) Secret.t) :
  st !! (ns, appName) = None →
  result (run (bootstrapStore gen) (initClusterInfo X c) st) = inl gen
  ∧ result (run (bootstrapStore gen) (initClusterInfo X c)
              (final (run (bootstrapStore gen) (initClusterInfo X c) st)))
    = inl (ClusterInfo.setMonitors gen ∅)
  ∧ writes (trace (run (bootstrapStore gen) (initClusterInfo X c)
                     (final (run (bootstrapStore gen) (initClusterInfo X c) st)))) = [].
Proof.
  intros Hnone.
  assert (Hfirst :
    result (run (bootstrapStore gen) (initClusterInfo X c) st) = inl gen
    ∧ final (run (bootstrapStore gen) (initClusterInfo X c) st) !! (ns, appName)
      = Some (storedSecret (identitySecret gen))).
  { rewrite run_initClusterInfo. cbv zeta.
    cbn [handle bootstrapStore secretStore]. rewrite Hnone.
    cbn [fst snd IsKubernetesResourceNotFoundError negb].
    unfold createMonSecretsAndSave. cbn -[insert lookup storedSecret].
    fold (identitySecret gen). fold (adminSecret gen).
    change (Secret.Name (identitySecret gen)) with appName.
    rewrite Hnone. cbn -[insert lookup storedSecret].
    change (Secret.Name (adminSecret gen)) with "rook-admin".
    rewrite lookup_insert_ne by (intros [=]).
    destruct (st !! (ns, "rook-admin")); cbn -[insert lookup storedSecret].
    - split; [done|]. unfold final. cbn [fst snd]. by rewrite lookup_insert_eq.
    - split; [done|]. unfold final. cbn [fst snd].
      rewrite lookup_insert_ne by (intros [=]). by rewrite lookup_insert_eq. }
  destruct Hfirst as [Hres Hkept]. split; [exact Hres|].
  assert (Hfound :
    (handle (bootstrapStore gen)
       (final (run (bootstrapStore gen) (initClusterInfo X c) st))
       (SecretsGet ns appName)).2 = (storedSecret (identitySecret gen), None)).
  { cbn [St handle bootstrapStore secretStore] in *. by rewrite Hkept. }
  rewrite (initClusterInfo_found (bootstrapStore gen) _ _ Hfound).
  split; [|done]. unfold result. cbn [fst snd]. by rewrite decoded_stored.
Qed.

(** *** How much the launcher can do *)

Lemma fetches_app (tr1 tr2 : list Event) :
  fetches (tr1 ++ tr2) = fetches tr1 ++ fetches tr2.
Proof. apply omap_app. Qed.

Lemma startLoop_bounds (E : Env) (aa : bool) (mons : list MonConfig.t) :
  ∀ (st : St E) (info : ClusterInfo.t) (s a : Z),
    (length (creates (trace (run E (startLoop X c aa mons info s a) st))) ≤ length mons)%nat
    ∧ (length (fetches (trace (run E (startLoop X c aa mons info s a) st)))
       ≤ 15 * length (creates (trace (run E (startLoop X c aa mons info s a) st))))%nat.
Proof.
  induction mons as [|m rest IH]; intros st info s a.
  - split; simpl; lia.
  - rewrite run_startLoop_cons. cbv zeta.
    destruct (handle E st (PodsCreate ns (makeMonPod X c m info aa))) as [st1 [p err]].
    cbn [fst snd].
    assert (Hafter : ∀ s' a',
      (length (creates ((PodsCreate ns (makeMonPod X c m info aa), RPod p err)
                          :: trace (afterCreate E aa m rest info s' a' st1)))
       ≤ length (m :: rest))%nat
      ∧ (length (fetches ((PodsCreate ns (makeMonPod X c m info aa), RPod p err)
                            :: trace (afterCreate E aa m rest info s' a' st1)))
         ≤ 15 * length (creates ((PodsCreate ns (makeMonPod X c m info aa), RPod p err)
                                   :: trace (afterCreate E aa m rest info s' a' st1))))%nat).
    { intros s' a'. unfold afterCreate. cbv zeta.
      destruct (waitLoop_outcome E (makeMonPod X c m info aa) 15 st1)
        as (replies & Htr & Hlen & _).
      fold (waitForPodToStart c (makeMonPod X c m info aa)) in Htr.
      destruct (result (run E (waitForPodToStart c (makeMonPod X c m info aa)) st1))
        as [podIP|e].
      - unfold trace at 1 4 7. cbn [snd]. rewrite Htr.
        rewrite creates_block.
        change (fetches (?ev :: ?t)) with (fetches t).
        rewrite fetches_app, fetches_rounds, length_app, length_replicate.
        destruct (IH (final (run E (waitForPodToStart c (makeMonPod X c m info aa)) st1))
                    (ClusterInfo.putMonitor info (MonConfig.Name m)
                       (ToCephMon X (MonConfig.Name m) podIP)) s' a') as [Hc Hf].
        cbn [length]. split; lia.
      - unfold trace at 1 3 5. cbn [snd]. rewrite Htr.
        rewrite <- (app_nil_r (rounds _ _ _)), creates_block, app_nil_r.
        change (fetches (?ev :: ?t)) with (fetches t).
        rewrite fetches_rounds, length_replicate.
        change (creates []) with (@nil Pod.t). cbn [length]. split; lia. }
    destruct err as [e|].
    + destruct (IsKubernetesResourceAlreadyExistError e); cbn [negb].
      * exact (Hafter s (a + 1)%Z).
      * unfold trace. cbn. split; lia.
    + exact (Hafter (s + 1)%Z a).
Qed.

(** X15. Whatever the environment answers, [startPods] issues at most one
    create per spec and at most 15 status fetches per create it issued. *)
Theorem startPods_bounded (E : Env) (st : St E) (info : ClusterInfo.t)
    (mons : list MonConfig.t) :
  (length (creates (trace (run E (startPods X c info mons) st))) ≤ length mons)%nat
  ∧ (length (fetches (trace (run E (startPods X c info mons) st)))
     ≤ 15 * length (creates (trace (run E (startPods X c info mons) st))))%nat.
Proof.
  unfold startPods, getAntiAffinity, pollPods.
  cbn -[startLoop append bool_decide Z.of_nat Nat.mul].
  destruct (handle E st (NodesList "Node")) as [st1 [nodes [e|]]];
    cbn -[startLoop append bool_decide Z.of_nat Nat.mul]; [split; lia|].
  destruct (handle E st1 (PollPods ns (ClusterInfo.Name info)))
    as [st2 [[running pending] [e|]]];
    cbn -[startLoop append bool_decide Z.of_nat Nat.mul]; [split; lia|].
  case_bool_decide as Hsize; cbn -[startLoop append bool_decide Z.of_nat Nat.mul];
    [split; lia|].
  rewrite run_mbind.
  pose proof (startLoop_bounds E (bool_decide (Cluster.Size c ≤ Z.of_nat (length nodes))%Z)
                mons st2 (ClusterInfo.setMonitors info (recordRunning X running ∅)) 0 0)
    as Hloop.
  destruct (run E (startLoop X c _ mons _ 0 0) st2) as [[[[[info' s'] a'] err] st3] tr].
  unfold trace, result in *. cbn -[append Nat.mul] in *.
  rewrite app_nil_r. exact Hloop.
Qed.

(** *** The launcher loop, poll by poll *)

Lemma waitForPodToStart_WaitOutcome (E : Env) (st : St E) (pod : Pod.t) :
  ∃ replies,
    trace (run E (waitForPodToStart c pod) st) = rounds ns (Pod.Name pod) replies
    ∧ WaitOutcome pod replies (result (run E (waitForPodToStart c pod) st)).
Proof.
  unfold waitForPodToStart.
  destruct (waitLoop_outcome E pod 15 st) as (replies & Htr & Hlen & Hout).
  exists replies. split; [done|].
  destruct (result (run E (waitLoop c pod 15) st)) as [ip|e].
  - destruct Hout as (init & p & -> & Hinit & Hp & <-).
    rewrite length_app in Hlen. cbn in Hlen. apply WaitRunning; [done|lia|done].
  - destruct Hout as [(init & p & e' & -> & Hinit & ->)|(Hn & Hall & ->)].
    + rewrite length_app in Hlen. cbn in Hlen. apply WaitFetchFails; [done|lia].
    + by apply WaitTimedOut.
Qed.

Lemma run_startLoop_LoopSteps (E : Env) (aa : bool) (mons : list MonConfig.t) :
  ∀ (st : St E) (info : ClusterInfo.t) (s a : Z),
    LoopSteps aa mons info
      (trace (run E (startLoop X c aa mons info s a) st))
      (result (run E (startLoop X c aa mons info s a) st)).1.1.1
      (result (run E (startLoop X c aa mons info s a) st)).2.
Proof.
  induction mons as [|m rest IH]; intros st info s a.
  - apply StepsDone.
  - rewrite run_startLoop_cons. cbv zeta.
    destruct (handle E st (PodsCreate ns (makeMonPod X c m info aa))) as [st1 [p err]].
    cbn [fst snd].
    assert (Hafter : ∀ s' a', accepted err = true →
      LoopSteps aa (m :: rest) info
        ((PodsCreate ns (makeMonPod X c m info aa), RPod p err)
           :: trace (afterCreate E aa m rest info s' a' st1))
        (result (afterCreate E aa m rest info s' a' st1)).1.1.1
        (result (afterCreate E aa m rest info s' a' st1)).2).
    { intros s' a' Hacc. unfold afterCreate. cbv zeta.
      destruct (waitForPodToStart_WaitOutcome E st1 (makeMonPod X c m info aa))
        as (replies & Htr & Hout).
      destruct (result (run E (waitForPodToStart c (makeMonPod X c m info aa)) st1))
        as [podIP|e].
      - unfold trace at 1, result at 1 3. cbn [fst snd]. rewrite Htr.
        eapply StepsNext; [exact Hacc|exact Hout|]. apply IH.
      - unfold trace at 1, result. cbn [fst snd]. rewrite Htr.
        by apply StepsWaitFails. }
    destruct err as [e|].
    + destruct (IsKubernetesResourceAlreadyExistError e) eqn:Hae; cbn [negb].
      * apply Hafter. exact Hae.
      * by apply StepsCreateFails.
    + by apply Hafter.
Qed.

Lemma LoopSteps_head aa mons info tr info' err :
  LoopSteps aa mons info tr info' err →
  tr = [] ∨ ∃ pod' r rest', tr = (PodsCreate ns pod', r) :: rest'.
Proof. destruct 1; [by left|right; by eexists _, _, _..]. Qed.

Lemma LoopSteps_waitDecides aa mons info tr info' err :
  LoopSteps aa mons info tr info' err → waitDecides tr err.
Proof.
  induction 1 as [|m rest info p e Hfatal|m rest info p err replies cause Hacc Hout
                  |m rest info p err replies podIP tr info' err' Hacc Hout Hrun IH];
    intros tr1 ns0 pod p0 err0 tr2 Heq Hacc0.
  - by destruct tr1.
  - destruct tr1 as [|x tr1]; simplify_eq/=; [|by destruct tr1].
    by rewrite Hfatal in Hacc0.
  - rewrite <- (app_nil_r (rounds _ _ _)) in Heq.
    apply create_in_block in Heq as [(-> & Hev & ->)|[tr1' Hnil]].
    + simplify_eq. exists replies, []. split; [done|]. split; [by left|].
      right. by exists cause.
    + by destruct tr1'.
  - apply create_in_block in Heq as [(-> & Hev & ->)|[tr1' Htr]].
    + simplify_eq. exists replies, tr. split; [done|].
      split; [by eapply LoopSteps_head|]. left. by exists podIP.
    + by eapply IH.
Qed.

Lemma failsAtEnd_app (pre tr : list Event) (x : error) :
  failsAtEnd tr x → failsAtEnd (pre ++ tr) x.
Proof.
  intros [(tr0 & pod & p & e & -> & He & ->)|(tr0 & pod & replies & cause & -> & Hout & ->)].
  - left. exists (pre ++ tr0), pod, p, e. by rewrite app_assoc.
  - right. exists (pre ++ tr0), pod, replies, cause. by rewrite app_assoc.
Qed.

(** An error of the loop comes from what its trace ends with. *)
Lemma LoopSteps_failsAtEnd aa mons info tr info' err :
  LoopSteps aa mons info tr info' err → ∀ x, err = Some x → failsAtEnd tr x.
Proof.
  induction 1 as [|m rest info p e Hfatal|m rest info p err replies cause Hacc Hout
                  |m rest info p err replies podIP tr info' err' Hacc Hout Hrun IH];
    intros x Hx.
  - discriminate.
  - injection Hx as <-. left. by exists [], (makeMonPod X c m info aa), p, e.
  - injection Hx as <-. right.
    by exists [(PodsCreate ns (makeMonPod X c m info aa), RPod p err)],
              (makeMonPod X c m info aa), replies, cause.
  - change (failsAtEnd
              (((PodsCreate ns (makeMonPod X c m info aa), RPod p err)
                  :: rounds ns (Pod.Name (makeMonPod X c m info aa)) replies) ++ tr) x).
    apply failsAtEnd_app. by apply IH.
Qed.

Lemma LoopSteps_alreadyExistsPassedOver aa mons info tr info' err :
  LoopSteps aa mons info tr info' err → alreadyExistsPassedOver tr err.
Proof.
  induction 1 as [|m rest info p e Hfatal|m rest info p err replies cause Hacc Hout
                  |m rest info p err replies podIP tr info' err' Hacc Hout Hrun IH];
    intros tr1 ns0 pod p0 e0 tr2 Heq Hae x Hx.
  - by destruct tr1.
  - destruct tr1 as [|y tr1]; simplify_eq/=; [|by destruct tr1].
    by rewrite Hfatal in Hae.
  - rewrite <- (app_nil_r (rounds _ _ _)) in Heq.
    apply create_in_block in Heq as [(-> & Hev & ->)|[tr1' Hnil]].
    + simplify_eq. right. rewrite app_nil_r.
      by exists [], (makeMonPod X c m info aa), replies, cause.
    + by destruct tr1'.
  - apply create_in_block in Heq as [(-> & Hev & ->)|[tr1' Htr]].
    + apply failsAtEnd_app. by eapply LoopSteps_failsAtEnd.
    + by eapply IH.
Qed.

Lemma waitDecides_cons (ev : Event) (tr : list Event) (err : option error) :
  (∀ ns0 pod, ev.1 ≠ PodsCreate ns0 pod) → waitDecides tr err → waitDecides (ev :: tr) err.
Proof.
  intros Hev Htr tr1 ns0 pod p err0 tr2 Heq Hacc.
  destruct tr1 as [|y tr1].
  - injection Heq as -> _. by destruct (Hev ns0 pod).
  - injection Heq as _ Heq. by eapply Htr.
Qed.

Lemma alreadyExistsPassedOver_cons (ev : Event) (tr : list Event) (err : option error) :
  (∀ ns0 pod, ev.1 ≠ PodsCreate ns0 pod) →
  alreadyExistsPassedOver tr err → alreadyExistsPassedOver (ev :: tr) err.
Proof.
  intros Hev Htr tr1 ns0 pod p e tr2 Heq Hae.
  destruct tr1 as [|y tr1].
  - injection Heq as -> _. by destruct (Hev ns0 pod).
  - injection Heq as _ Heq. by eapply Htr.
Qed.

Lemma waitDecides_nil (err : option error) : waitDecides [] err.
Proof. intros tr1 ns0 pod p err0 tr2 Heq. by destruct tr1. Qed.

Lemma alreadyExistsPassedOver_nil (err : option error) : alreadyExistsPassedOver [] err.
Proof. intros tr1 ns0 pod p e tr2 Heq. by destruct tr1. Qed.

(** Both hold of every run of [startPods]: its two listings are no
    creates, and what follows them is a run of the loop. *)
Lemma startPods_waitDecides (E : Env) (st : St E) (info : ClusterInfo.t)
    (mons : list MonConfig.t) :
  waitDecides (trace (run E (startPods X c info mons) st))
    (result (run E (startPods X c info mons) st)).2
  ∧ alreadyExistsPassedOver (trace (run E (startPods X c info mons) st))
      (result (run E (startPods X c info mons) st)).2.
Proof.
  unfold startPods, getAntiAffinity, pollPods.
  cbn -[startLoop append bool_decide Z.of_nat].
  destruct (handle E st (NodesList "Node")) as [st1 [nodes [e|]]];
    cbn -[startLoop append bool_decide Z.of_nat].
  { split; [apply waitDecides_cons, waitDecides_nil
           |apply alreadyExistsPassedOver_cons, alreadyExistsPassedOver_nil]; done. }
  destruct (handle E st1 (PollPods ns (ClusterInfo.Name info)))
    as [st2 [[running pending] [e|]]]; cbn -[startLoop append bool_decide Z.of_nat].
  { split; [do 2 (apply waitDecides_cons; [done|]); apply waitDecides_nil
           |do 2 (apply alreadyExistsPassedOver_cons; [done|]);
            apply alreadyExistsPassedOver_nil]. }
  case_bool_decide as Hsize; cbn -[startLoop append bool_decide Z.of_nat].
  { split; [do 2 (apply waitDecides_cons; [done|]); apply waitDecides_nil
           |do 2 (apply alreadyExistsPassedOver_cons; [done|]);
            apply alreadyExistsPassedOver_nil]. }
  rewrite run_mbind.
  pose proof (run_startLoop_LoopSteps E (bool_decide (Cluster.Size c ≤ Z.of_nat (length nodes))%Z)
                mons st2 (ClusterInfo.setMonitors info (recordRunning X running ∅)) 0 0)
    as Hloop.
  destruct (run E (startLoop X c _ mons _ 0 0) st2) as [[[[[info' s'] a'] err] st3] tr].
  unfold trace, result in *. cbn -[append] in *. rewrite app_nil_r.
  split; [do 2 (apply waitDecides_cons; [done|]); by eapply LoopSteps_waitDecides
         |do 2 (apply alreadyExistsPassedOver_cons; [done|]);
          by eapply LoopSteps_alreadyExistsPassedOver].
Qed.

(** C6, as the code has it. [startPods] is given the specs that [Start]
    builds, named mon0, mon1, ... in this order, and the listing shows no
    instance. Then the creates are for these specs in this order from the
    first on, and there are exactly [Size] of them when no error is
    returned; each create that succeeds or reports AlreadyExists is followed
    at once by the poll rounds of the pod it created, before the next
    create; a create that fails otherwise is the last call and its error is
    returned; a poll that fails (a fetch that fails, or 15 fetches without
    Running) is the end of the trace as well, no create follows it, and its
    failure is the error returned. *)
Theorem startPods_fresh_in_order (E : Env) (st : St E) (info : ClusterInfo.t) :
  trace (run E (startPods X c info (monConfigs X c)) st) !! 1%nat
    = Some (PollPods ns (ClusterInfo.Name info), RPoll [] [] None) →
  MonConfig.Name <$> monConfigs X c
    = (λ i, "mon" +:+ pretty i) <$> seqZ 0 (Cluster.Size c)
  ∧ Forall2 madeFor
      (creates (trace (run E (startPods X c info (monConfigs X c)) st)))
      (take (length (creates (trace (run E (startPods X c info (monConfigs X c)) st))))
            (monConfigs X c))
  ∧ ((result (run E (startPods X c info (monConfigs X c)) st)).2 = None →
     length (creates (trace (run E (startPods X c info (monConfigs X c)) st)))
     = Z.to_nat (Cluster.Size c))
  ∧ waitFollows (trace (run E (startPods X c info (monConfigs X c)) st))
  ∧ createFailureEnds (trace (run E (startPods X c info (monConfigs X c)) st))
      (result (run E (startPods X c info (monConfigs X c)) st)).2
  ∧ waitDecides (trace (run E (startPods X c info (monConfigs X c)) st))
      (result (run E (startPods X c info (monConfigs X c)) st)).2.
Proof.
  intros Hlist. split; [apply names_monConfigs|].
  pose proof (startPods_waitDecides E st info (monConfigs X c)) as [Hdecides _].
  pose proof (run_startPods_StartRun E st info (monConfigs X c)) as Hrun.
  pose proof length_monConfigs as Hlen.
  destruct (run E (startPods X c info (monConfigs X c)) st) as [[[info' err] st'] tr].
  unfold trace, result in *. cbn [fst snd] in *.
  destruct (StartRun_waitFollows _ _ _ _ _ Hrun) as [Hwait Hfatal].
  split; [|split; [|done]].
  - inversion Hrun as [nodes e|nodes running' pending' e|nodes running' pending' Hsize
                      |nodes running' pending' tr' i' e' Hsize Hloop];
      subst; cbn in Hlist; simplify_eq; try by constructor.
    change (creates (_ :: _ :: tr')) with (creates tr').
    by destruct (LoopRun_creates _ _ _ _ _ _ Hloop) as (Hall & _ & _).
  - intros Herr.
    inversion Hrun as [nodes e|nodes running' pending' e|nodes running' pending' Hsize
                      |nodes running' pending' tr' i' e' Hsize Hloop];
      subst; cbn in Hlist; simplify_eq.
    + cbn in Hsize. rewrite <- Hsize. reflexivity.
    + change (creates (_ :: _ :: tr')) with (creates tr').
      destruct (LoopRun_creates _ _ _ _ _ _ Hloop) as (_ & Hall & _).
      rewrite Hall by done. exact Hlen.
Qed.

(** C1, as the code has it. On the create of the rook-admin secret an
    AlreadyExists failure is passed over and the identity is returned; on a
    create of a monitor pod an AlreadyExists failure is passed over like a
    success: the poll rounds of that pod follow at once, and an error that
    [startPods] returns does not come from that create but from what the
    rest of the trace ends with, a later create refused with another error
    or a poll that failed. On the create of the identity secret every
    failure is fatal, AlreadyExists too: it is the last call and its error
    is returned. *)
Theorem already_exists_on_create_paths :
  (∀ (E : Env) (st : St E) tr1 ns0 secret s e tr2,
     trace (run E (createMonSecretsAndSave X c) st)
       = tr1 ++ (SecretsCreate ns0 secret, RSecret s (Some e)) :: tr2 →
     (Secret.Name secret = "rook-admin" →
      IsKubernetesResourceAlreadyExistError e = true →
        ∃ info, trace (run E (createMonSecretsAndSave X c) st) !! 0%nat
                  = Some (CreateClusterInfo "", RInfo info None)
                ∧ result (run E (createMonSecretsAndSave X c) st) = inl info)
     ∧ (Secret.Name secret = appName →
        tr2 = []
        ∧ result (run E (createMonSecretsAndSave X c) st)
          = inr (Errorf ("failed to save mon secrets. " +:+ Error e))))
  ∧ (∀ (E : Env) (st : St E) info mons,
       waitFollows (trace (run E (startPods X c info mons) st)))
  ∧ (∀ (E : Env) (st : St E) info mons,
       alreadyExistsPassedOver (trace (run E (startPods X c info mons) st))
         (result (run E (startPods X c info mons) st)).2).
Proof.
  split; [|split].
  - intros E st tr1 ns0 secret s e tr2 Heq.
    pose proof (run_createMonSecretsAndSave_SaveRun E st) as Hrun.
    destruct (run E (createMonSecretsAndSave X c) st) as [[res st'] tr].
    unfold trace, result in *. cbn [fst snd] in *.
    revert Heq.
    inversion Hrun as [info e0|info s0 e0|info s0 s1 e0 Hfatal|info s0 s1 err Hacc];
      subst; intros Heq.
    + destruct tr1 as [|x1 [|x2 tr1]]; discriminate Heq.
    + destruct tr1 as [|x1 [|x2 [|x3 tr1]]]; simplify_eq/=.
      split; [discriminate|done].
    + destruct tr1 as [|x1 [|x2 [|x3 [|x4 tr1]]]]; simplify_eq/=.
      split; [|discriminate]. intros _ Hae. by rewrite Hae in Hfatal.
    + destruct tr1 as [|x1 [|x2 [|x3 [|x4 tr1]]]]; simplify_eq/=.
      split; [|discriminate]. intros _ _. by exists info.
  - intros E st info mons.
    exact (proj1 (StartRun_waitFollows _ _ _ _ _ (run_startPods_StartRun E st info mons))).
  - intros E st info mons. exact (proj2 (startPods_waitDecides E st info mons)).
Qed.

End Properties.

(** ** Concrete runs *)

(** *** Identity resolution *)

Lemma initClusterInfo_found_monitors_empty_witness :
  (handle secretStore persisted (SecretsGet "rook" appName)).2 = (monSecret, None)
  ∧ ∃ info, result (runStore (initClusterInfo testImports tc) persisted) = inl info
            ∧ ClusterInfo.Monitors info = ∅.
Proof.
  split; [reflexivity|].
  apply (initClusterInfo_found_monitors_empty testImports tc secretStore persisted monSecret).
  reflexivity.
Defined.

Lemma initClusterInfo_found_never_fails_witness :
  (handle secretStore hollow (SecretsGet "rook" appName)).2 = (hollowSecret, None)
  ∧ result (runStore (initClusterInfo testImports tc) hollow) = inl (decoded hollowSecret)
  ∧ trace (runStore (initClusterInfo testImports tc) hollow)
    = [(SecretsGet "rook" appName, RSecret hollowSecret None)].
Proof.
  split; [reflexivity|].
  pose proof (initClusterInfo_found_never_fails testImports tc secretStore hollow
                hollowSecret eq_refl) as (Hres & Htr & _).
  split; [exact Hres|exact Htr].
Defined.

(** C2 fails on the code: an identity resource that holds none of the four
    fields is found, and [initClusterInfo] returns an identity of empty
    strings, not an error. *)
Lemma initClusterInfo_hollow_is_accepted :
  Secret.Data hollowSecret = ∅
  ∧ result (runStore (initClusterInfo testImports tc) hollow)
    = inl (ClusterInfo.mk "" "" "" "" ∅)
  ∧ ¬ ∃ e, result (runStore (initClusterInfo testImports tc) hollow) = inr e.
Proof.
  split; [reflexivity|]. split; [reflexivity|].
  intros [e He]. vm_compute in He. discriminate He.
Qed.

Lemma secretStore_get_reads (st : gmap (string * string) Secret.t) (ns name : string) :
  (handle secretStore st (SecretsGet ns name)).1 = st.
Proof. simpl. by destruct (st !! (ns, name)). Qed.

Lemma initClusterInfo_idempotent_witness :
  (∀ st name, (handle secretStore st (SecretsGet "rook" name)).1 = st)
  ∧ (handle secretStore persisted (SecretsGet "rook" appName)).2 = (monSecret, None)
  ∧ result (runStore (initClusterInfo testImports tc)
              (final (runStore (initClusterInfo testImports tc) persisted)))
    = result (runStore (initClusterInfo testImports tc) persisted)
  ∧ writes (trace (runStore (initClusterInfo testImports tc)
                     (final (runStore (initClusterInfo testImports tc) persisted)))) = [].
Proof.
  split; [intros st name; apply secretStore_get_reads|].
  split; [reflexivity|].
  pose proof (initClusterInfo_idempotent testImports tc secretStore persisted monSecret
                (λ st name, secretStore_get_reads st "rook" name) eq_refl)
    as (Hres & Hwr & _).
  split; [exact Hres|exact Hwr].
Defined.

(** C1 fails on the code: the get finds no identity, another controller
    saves one, and the create of the identity secret reports AlreadyExists;
    [initClusterInfo] returns that failure to its caller. *)
Lemma initClusterInfo_lost_race_is_fatal :
  IsKubernetesResourceAlreadyExistError
    (StoreError AlreadyExists "secrets mon already exists") = true
  ∧ result (runScript (initClusterInfo testImports tc) raceScript)
    = inr (Errorf "failed to save mon secrets. secrets mon already exists").
Proof. split; reflexivity. Qed.

(** *** The readiness poll *)

Lemma waitForPodToStart_always_pending_witness :
  (∀ st, ∃ p, (handle alwaysPending st (PodsGet "rook" "mon0")).2 = (p, None)
              ∧ Pod.Phase p = PodPending)
  ∧ result (run alwaysPending (waitForPodToStart tc (pendingPod "mon0")) tt)
    = inr (Errorf "timed out waiting for pod mon0 to start")
  ∧ fetches (trace (run alwaysPending (waitForPodToStart tc (pendingPod "mon0")) tt))
    = replicate 15 "mon0".
Proof.
  assert (Hpend : ∀ st : St alwaysPending,
            ∃ p, (handle alwaysPending st (PodsGet "rook" "mon0")).2 = (p, None)
                 ∧ Pod.Phase p = PodPending).
  { intros st. exists (pendingPod "mon0"). split; reflexivity. }
  split; [exact Hpend|].
  pose proof (waitForPodToStart_always_pending tc alwaysPending tt (pendingPod "mon0") Hpend)
    as (Hres & Hfetch & _).
  split; [exact Hres|exact Hfetch].
Defined.

Lemma waitForPodToStart_fetch_failure_witness :
  trace (runScript (waitForPodToStart tc (pendingPod "mon0")) fetchFailsScript)
    = [(After 6, RDone); (PodsGet "rook" "mon0", RPod (pendingPod "mon0") None);
       (After 6, RDone)]
      ++ (PodsGet "rook" "mon0",
          RPod Pod.zero (Some (StoreError OtherFailure "connection refused"))) :: []
  ∧ result (runScript (waitForPodToStart tc (pendingPod "mon0")) fetchFailsScript)
    = inr (Errorf "failed to get mon pod . connection refused").
Proof.
  split; [reflexivity|].
  exact (proj2 (waitForPodToStart_fetch_failure tc scripted fetchFailsScript
                  (pendingPod "mon0")
                  [(After 6, RDone); (PodsGet "rook" "mon0", RPod (pendingPod "mon0") None);
                   (After 6, RDone)]
                  [] "mon0" Pod.zero
                  (StoreError OtherFailure "connection refused") eq_refl)).
Defined.

(** *** The launcher *)

Lemma startPods_short_circuit_witness :
  trace (runScript (startPods testImports tc freshInfo (monConfigs testImports tc))
           allRunningScript) !! 1%nat
    = Some (PollPods "rook" "rookcluster", RPoll threeRunning [] None)
  ∧ Z.of_nat (length (threeRunning)) = Cluster.Size tc
  ∧ result (runScript (startPods testImports tc freshInfo (monConfigs testImports tc))
              allRunningScript)
    = (reset testImports freshInfo threeRunning, None)
  ∧ length (trace (runScript (startPods testImports tc freshInfo (monConfigs testImports tc))
                     allRunningScript)) = 2%nat.
Proof.
  split; [reflexivity|]. split; [reflexivity|].
  pose proof (startPods_short_circuit testImports tc scripted allRunningScript freshInfo
                (monConfigs testImports tc) threeRunning [] eq_refl eq_refl)
    as (Hres & Hlen & _).
  split; [exact Hres|exact Hlen].
Defined.

(** C3 fails on the code: the identity comes in with a monitor entry mon9;
    [startPods] returns no error and the entry is gone. *)
Lemma startPods_drops_stale_monitor :
  ClusterInfo.Monitors staleInfo !! "mon9"
    = Some (CephMonitorConfig.mk "mon9" "10.0.0.9:6790")
  ∧ (result (runScript (startPods testImports tc staleInfo (monConfigs testImports tc))
               allRunningScript)).2 = None
  ∧ ClusterInfo.Monitors
      (result (runScript (startPods testImports tc staleInfo (monConfigs testImports tc))
                 allRunningScript)).1 !! "mon9" = None.
Proof. repeat split; vm_compute; reflexivity. Qed.

Lemma startPods_creates_by_count_witness :
  trace (runScript (startPods testImports tc freshInfo (monConfigs testImports tc))
           oneRunningScript) !! 1%nat
    = Some (PollPods "rook" "rookcluster",
            RPoll [runningPod "mon0" "10.0.0.1"] [] None)
  ∧ (Z.of_nat (length ([runningPod "mon0" "10.0.0.1"])) ≠ Cluster.Size tc →
     length (creates (trace (runScript
               (startPods testImports tc freshInfo (monConfigs testImports tc))
               oneRunningScript)))
     = length (monConfigs testImports tc)).
Proof.
  split; [reflexivity|]. intros Hne.
  pose proof (startPods_creates_by_count testImports tc scripted oneRunningScript freshInfo
                (monConfigs testImports tc) [runningPod "mon0" "10.0.0.1"] [] eq_refl)
    as (_ & Hloop).
  destruct (Hloop Hne) as (_ & _ & Hall). apply Hall. reflexivity.
Defined.

(** C4 fails on the code: mon0 is listed as Running, the count of Running
    instances (1) differs from the size (3), and a create is issued for mon0
    as for the other two specs. *)
Lemma startPods_creates_running_spec :
  Pod.Name <$> [runningPod "mon0" "10.0.0.1"] = ["mon0"]
  ∧ trace (runScript (startPods testImports tc freshInfo (monConfigs testImports tc))
             oneRunningScript) !! 1%nat
    = Some (PollPods "rook" "rookcluster",
            RPoll [runningPod "mon0" "10.0.0.1"] [] None)
  ∧ Pod.Name <$> creates (trace (runScript
        (startPods testImports tc freshInfo (monConfigs testImports tc))
        oneRunningScript))
    = ["mon0"; "mon1"; "mon2"].
Proof. repeat split; vm_compute; reflexivity. Qed.

Lemma startPods_fresh_in_order_witness :
  trace (runScript (startPods testImports tc freshInfo (monConfigs testImports tc))
           freshScript) !! 1%nat
    = Some (PollPods "rook" "rookcluster", RPoll [] [] None)
  ∧ MonConfig.Name <$> monConfigs testImports tc
    = (λ i, "mon" +:+ pretty i) <$> seqZ 0 (Cluster.Size tc)
  ∧ length (creates (trace (runScript
              (startPods testImports tc freshInfo (monConfigs testImports tc))
              freshScript)))
    = Z.to_nat (Cluster.Size tc).
Proof.
  split; [reflexivity|].
  pose proof (startPods_fresh_in_order testImports tc scripted freshScript freshInfo eq_refl)
    as (Hnames & _ & Hlen & _).
  split; [exact Hnames|]. apply Hlen. reflexivity.
Defined.

(** C6 fails on the code: three specs, no instance exists, the create of
    mon0 succeeds but the pod stays Pending through its 15 fetches;
    [startPods] gives up after one create call. *)
Lemma startPods_stops_at_stuck_pod :
  trace (runScript (startPods testImports tc freshInfo (monConfigs testImports tc))
           stuckScript) !! 1%nat
    = Some (PollPods "rook" "rookcluster", RPoll [] [] None)
  ∧ MonConfig.Name <$> monConfigs testImports tc = ["mon0"; "mon1"; "mon2"]
  ∧ Pod.Name <$> creates (trace (runScript
        (startPods testImports tc freshInfo (monConfigs testImports tc)) stuckScript))
    = ["mon0"]
  ∧ (result (runScript (startPods testImports tc freshInfo (monConfigs testImports tc))
               stuckScript)).2
    = Some (Errorf "failed to start pod mon0. timed out waiting for pod mon0 to start").
Proof. repeat split; vm_compute; reflexivity. Qed.

(** *** Further properties *)

Lemma waitForPodToStart_running_ends_witness :
  trace (runScript (waitForPodToStart tc (pendingPod "mon0")) warmupScript)
    = [(After 6, RDone); (PodsGet "rook" "mon0", RPod (pendingPod "mon0") None);
       (After 6, RDone)]
      ++ (PodsGet "rook" "mon0", RPod (runningPod "mon0" "10.0.0.1") None) :: []
  ∧ Pod.Phase (runningPod "mon0" "10.0.0.1") = PodRunning
  ∧ result (runScript (waitForPodToStart tc (pendingPod "mon0")) warmupScript)
    = inl "10.0.0.1".
Proof.
  split; [reflexivity|]. split; [reflexivity|].
  exact (proj2 (waitForPodToStart_running_ends tc scripted warmupScript
                  (pendingPod "mon0")
                  [(After 6, RDone); (PodsGet "rook" "mon0", RPod (pendingPod "mon0") None);
                   (After 6, RDone)]
                  [] "mon0" (runningPod "mon0" "10.0.0.1") eq_refl eq_refl)).
Defined.

Lemma waitForPodToStart_success_witness :
  result (runScript (waitForPodToStart tc (pendingPod "mon0")) warmupScript)
    = inl "10.0.0.1"
  ∧ ∃ init p,
      trace (runScript (waitForPodToStart tc (pendingPod "mon0")) warmupScript)
        = rounds "rook" "mon0" (init ++ [RPod p None])
      ∧ Forall keepsWaiting init
      ∧ Pod.Phase p = PodRunning
      ∧ Pod.PodIP p = "10.0.0.1".
Proof.
  split; [reflexivity|].
  exact (waitForPodToStart_success tc scripted warmupScript (pendingPod "mon0")
           "10.0.0.1" eq_refl).
Defined.

Lemma waitForPodToStart_timeout_witness :
  result (run alwaysPending (waitForPodToStart tc (pendingPod "mon0")) tt)
    = inr (timedOut (pendingPod "mon0"))
  ∧ ∃ replies,
      trace (run alwaysPending (waitForPodToStart tc (pendingPod "mon0")) tt)
        = rounds "rook" "mon0" replies
      ∧ length replies = 15%nat
      ∧ Forall keepsWaiting replies.
Proof.
  split; [reflexivity|].
  exact (waitForPodToStart_timeout tc alwaysPending tt (pendingPod "mon0") eq_refl).
Defined.

Lemma startPods_records_addresses_witness :
  trace (runScript (startPods testImports tc freshInfo (monConfigs testImports tc))
           freshScript) !! 1%nat
    = Some (PollPods "rook" "rookcluster", RPoll [] [] None)
  ∧ Z.of_nat (length (@nil Pod.t)) ≠ Cluster.Size tc
  ∧ (result (runScript (startPods testImports tc freshInfo (monConfigs testImports tc))
               freshScript)).2 = None
  ∧ ClusterInfo.Monitors
      (result (runScript (startPods testImports tc freshInfo (monConfigs testImports tc))
                 freshScript)).1
    = recordStarted testImports (monConfigs testImports tc)
        (addresses (trace (runScript
           (startPods testImports tc freshInfo (monConfigs testImports tc)) freshScript)))
        (recordRunning testImports [] ∅).
Proof.
  split; [reflexivity|]. split; [discriminate|]. split; [reflexivity|].
  assert (Hne : Z.of_nat (length (@nil Pod.t)) ≠ Cluster.Size tc) by discriminate.
  exact (proj1 (proj2 (startPods_records_addresses testImports tc scripted freshScript
                         freshInfo (monConfigs testImports tc) [] [] eq_refl Hne eq_refl))).
Defined.

Lemma startPods_antiaffinity_flag_witness :
  trace (runScript (startPods testImports tc freshInfo (monConfigs testImports tc))
           freshScript) !! 0%nat
    = Some (NodesList "Node", RNodes threeNodes None)
  ∧ Forall (λ pod, ∃ m i, m ∈ monConfigs testImports tc
              ∧ pod = makeMonPod testImports tc m i
                        (bool_decide (Cluster.Size tc ≤ Z.of_nat (length threeNodes))%Z))
           (creates (trace (runScript
              (startPods testImports tc freshInfo (monConfigs testImports tc)) freshScript))).
Proof.
  split; [reflexivity|].
  exact (startPods_antiaffinity_flag testImports tc scripted freshScript freshInfo
           (monConfigs testImports tc) threeNodes eq_refl).
Defined.

Lemma initClusterInfo_generates_only_on_not_found_witness :
  trace (runScript (initClusterInfo testImports tc) unreachableScript) !! 0%nat
    = Some (SecretsGet "rook" appName,
            RSecret Secret.zero (Some (StoreError OtherFailure "connection refused")))
  ∧ IsKubernetesResourceNotFoundError (StoreError OtherFailure "connection refused") = false
  ∧ result (runScript (initClusterInfo testImports tc) unreachableScript)
    = inr (Errorf "failed to get mon secrets. connection refused").
Proof.
  split; [reflexivity|]. split; [reflexivity|].
  exact (proj1 (proj2 (initClusterInfo_generates_only_on_not_found testImports tc scripted
                         unreachableScript Secret.zero
                         (Some (StoreError OtherFailure "connection refused")) eq_refl)
                  (StoreError OtherFailure "connection refused") eq_refl eq_refl)).
Defined.

Lemma createMonSecretsAndSave_success_witness :
  result (runScript (createMonSecretsAndSave testImports tc) saveScript) = inl freshInfo
  ∧ ∃ s s' err,
      trace (runScript (createMonSecretsAndSave testImports tc) saveScript)
        = [(CreateClusterInfo "", RInfo freshInfo None);
           (SecretsCreate "rook" (identitySecret testImports freshInfo), RSecret s None);
           (SecretsCreate "rook" (adminSecret testImports freshInfo), RSecret s' err)]
      ∧ accepted err = true.
Proof.
  split; [reflexivity|].
  exact (createMonSecretsAndSave_success testImports tc scripted saveScript freshInfo eq_refl).
Defined.

Lemma createMonSecretsAndSave_write_order_witness :
  trace (runScript (createMonSecretsAndSave testImports tc) saveScript) !! 0%nat
    = Some (CreateClusterInfo "", RInfo freshInfo None)
  ∧ (writes (trace (runScript (createMonSecretsAndSave testImports tc) saveScript))).*1
      `prefix_of` [SecretsCreate "rook" (identitySecret testImports freshInfo);
                   SecretsCreate "rook" (adminSecret testImports freshInfo)].
Proof.
  split; [reflexivity|].
  exact (proj1 (createMonSecretsAndSave_write_order testImports tc scripted saveScript
                  freshInfo None eq_refl)).
Defined.

Lemma Start_creates_pods_after_identity_witness :
  trace (runScript (Start testImports tc) startScript)
    = [(SecretsGet "rook" appName, RSecret monSecret None);
       (NodesList "Node", RNodes threeNodes None);
       (PollPods "rook" "rookcluster", RPoll [] [] None)]
      ++ (PodsCreate "rook" (Pod.mk "mon0" "" ""), RPod (pendingPod "mon0") None)
         :: drop 4 (trace (runScript (Start testImports tc) startScript))
  ∧ identityKept testImports tc
      [(SecretsGet "rook" appName, RSecret monSecret None);
       (NodesList "Node", RNodes threeNodes None);
       (PollPods "rook" "rookcluster", RPoll [] [] None)].
Proof.
  split; [reflexivity|].
  exact (Start_creates_pods_after_identity testImports tc scripted startScript
           [(SecretsGet "rook" appName, RSecret monSecret None);
            (NodesList "Node", RNodes threeNodes None);
            (PollPods "rook" "rookcluster", RPoll [] [] None)]
           (drop 4 (trace (runScript (Start testImports tc) startScript)))
           "rook" (Pod.mk "mon0" "" "") (RPod (pendingPod "mon0") None) eq_refl).
Defined.

Lemma Start_keeps_persisted_identity_witness :
  (handle scripted startScript (SecretsGet "rook" appName)).2 = (monSecret, None)
  ∧ ∀ info, result (runScript (Start testImports tc) startScript) = inl info →
      ClusterInfo.Name info = dataString monSecret clusterSecretName
      ∧ ClusterInfo.FSID info = dataString monSecret fsidSecretName
      ∧ ClusterInfo.MonitorSecret info = dataString monSecret monSecretName
      ∧ ClusterInfo.AdminSecret info = dataString monSecret adminSecretName.
Proof.
  split; [reflexivity|].
  exact (proj2 (Start_keeps_persisted_identity testImports tc scripted startScript
                  monSecret eq_refl)).
Defined.

Lemma Start_errors_name_their_stage_witness :
  (result (runScript (Start testImports tc) unreachableScript)
     = inr (Errorf ("failed to initialize ceph cluster info. "
                    +:+ "failed to get mon secrets. connection refused"))
   ∧ ∃ cause,
       result (runScript (initClusterInfo testImports tc) unreachableScript) = inr cause
       ∧ Error cause = "failed to get mon secrets. connection refused"
       ∧ trace (runScript (Start testImports tc) unreachableScript)
         = trace (runScript (initClusterInfo testImports tc) unreachableScript))
  ∧ (result (runScript (Start testImports tc) startStuckScript)
       = inr (Errorf ("failed to start mon pods. "
                      +:+ "failed to start pod mon0. timed out waiting for pod mon0 to start"))
     ∧ ∃ info cause,
         result (runScript (initClusterInfo testImports tc) startStuckScript) = inl info
         ∧ (result (runScript (startPods testImports tc info (monConfigs testImports tc))
                      (final (runScript (initClusterInfo testImports tc) startStuckScript)))).2
           = Some cause
         ∧ Error cause
           = "failed to start pod mon0. timed out waiting for pod mon0 to start").
Proof.
  split.
  - split; [reflexivity|].
    destruct (Start_errors_name_their_stage testImports tc scripted unreachableScript _ eq_refl)
      as [(cause & Hinit & He & Htr)|(info & cause & Hinit & _)].
    + exists cause. split; [exact Hinit|]. split; [|exact Htr].
      injection He as He. symmetry. exact He.
    + discriminate Hinit.
  - split; [reflexivity|].
    destruct (Start_errors_name_their_stage testImports tc scripted startStuckScript _ eq_refl)
      as [(cause & Hinit & _)|(info & cause & Hinit & Hpods & He)].
    + discriminate Hinit.
    + exists info, cause. split; [exact Hinit|]. split; [exact Hpods|].
      injection He as He. symmetry. exact He.
Defined.

Lemma initClusterInfo_saved_identity_reads_back_witness :
  (∅ : gmap (string * string) Secret.t) !! ("rook", appName) = None
  ∧ result (run (bootstrapStore freshInfo) (initClusterInfo testImports tc) ∅) = inl freshInfo
  ∧ result (run (bootstrapStore freshInfo) (initClusterInfo testImports tc)
              (final (run (bootstrapStore freshInfo) (initClusterInfo testImports tc) ∅)))
    = inl (ClusterInfo.setMonitors freshInfo ∅).
Proof.
  split; [reflexivity|].
  pose proof (initClusterInfo_saved_identity_reads_back testImports tc freshInfo ∅ eq_refl)
    as (Hfirst & Hsecond & _).
  split; [exact Hfirst|exact Hsecond].
Defined.
